(** * pyshort: a URL shortener (base62.py, app.py)

    A shallow embedding of the integer-to-base62 encoder and of the
    request handlers of the Flask application, with the properties of
    its specification stated and proved against the embedding.

    Conventions.
    - Python [int] is [Z]; Python [str] is [string] (byte strings; the
      models of [str.strip] and [int] cover the ASCII range).
    - A Python call that may raise returns [option] or an [Outcome];
      an uncaught exception in a handler is the response [ServerError].
    - The [url_map] table is the list of its rows in insertion order;
      [Query.filter_by(..).first()] is the first matching row.
    - Every [datetime.now(timezone.utc)] read is an explicit argument.
    - The database is SQLite, the default of [create_app] and the
      database of the tests: what it stores with a UTC offset it gives
      back without, and its integers have 64 bits. *)

From Stdlib Require Import ZArith Lia List Ascii String Bool.
From Equations Require Import Equations.
From stdpp Require Import base option list strings gmap.
Import ListNotations.

Local Open Scope string_scope.
Local Open Scope list_scope.
Local Open Scope Z_scope.

(** ** base62.py *)

Module Base62.

Definition ALPHABET : string :=
  "0123456789abcdefghijklmnopqrstuvwxyzABCDEFGHIJKLMNOPQRSTUVWXYZ".

(** [len(ALPHABET)] *)
Definition base : Z := Z.of_nat (String.length ALPHABET).

(** [s[i]] on a Python string: a negative index counts from the end,
    an index out of range raises [IndexError] ([None]). *)
Definition str_item (s : string) (i : Z) : option ascii :=
  let len := Z.of_nat (String.length s) in
  if i <? 0
  then (if i + len <? 0 then None else String.get (Z.to_nat (i + len)) s)
  else String.get (Z.to_nat i) s.

(** Number of binary digits of a positive integer ([int.bit_length]);
    the measure that decreases along the loop of [encode_base62]. *)
Definition bit_length (n : Z) : nat :=
  if 0 <? n then Z.to_nat (Z.log2 n + 1) else 0%nat.

Lemma bit_length_div (n : Z) :
  n > 0 -> (bit_length (n / base) < bit_length n)%nat.
Proof.
  intros Hn. unfold bit_length.
  assert (Hb : base = 62) by reflexivity.
  assert (0 <= Z.log2 n) by apply Z.log2_nonneg.
  destruct (Z.ltb_spec 0 n) as [_|]; [|lia].
  destruct (Z.ltb_spec 0 (n / base)) as [Hq|]; [|lia].
  assert (0 <= Z.log2 (n / base)) by apply Z.log2_nonneg.
  assert (Z.log2 (n / base) < Z.log2 n); [|lia].
  apply Z.log2_lt_pow2; [lia|].
  assert (Hs : n < 2 ^ Z.succ (Z.log2 n)) by (apply Z.log2_spec; lia).
  rewrite Z.pow_succ_r in Hs by lia.
  apply Z.div_lt_upper_bound; lia.
Qed.

(** The loop [while n > 0]: [n, rem = divmod(n, base)] then
    [out.append(ALPHABET[rem])]. Python's [divmod] floors, as [Z.div]
    and [Z.modulo] do for the positive [base]. *)
Equations encode_loop (n : Z) (out : list ascii) : option (list ascii)
  by wf (bit_length n) lt :=
  encode_loop n out with Z_gt_dec n 0 => {
    | left _ =>
        match str_item ALPHABET (n mod base) with
        | Some c => encode_loop (n / base) (out ++ [c])
        | None => None
        end
    | right _ => Some out }.
Next Obligation. intros. apply bit_length_div; assumption. Qed.

(** [encode_base62(n)]; [None] stands for an uncaught exception. *)
Definition encode_base62 (n : Z) : option string :=
  if n =? 0 then Some "0"
  else
    match encode_loop n [] with
    | Some out => Some (string_of_list_ascii (rev out))
    | None => None
    end.

(** *** Reference decoder

    No decoder ships with the program. The reference reads a numeral
    most-significant digit first; the value of a digit is its index in
    [ALPHABET]. *)

Fixpoint index_of (c : ascii) (s : string) : option Z :=
  match s with
  | EmptyString => None
  | String c' s' =>
      if Ascii.eqb c c' then Some 0
      else match index_of c s' with
           | Some i => Some (i + 1)
           | None => None
           end
  end.

Fixpoint decode_from (acc : Z) (s : string) : option Z :=
  match s with
  | EmptyString => Some acc
  | String c s' =>
      match index_of c ALPHABET with
      | Some d => decode_from (acc * base + d) s'
      | None => None
      end
  end.

Definition decode_base62 (s : string) : option Z := decode_from 0 s.

(** Value of a list of digits, most-significant first. *)
Definition digits_value (ds : list Z) : Z :=
  fold_left (fun acc d => acc * base + d) ds 0.

(** The numeral spelled by a list of digit values. *)
Fixpoint numeral (ds : list Z) : option string :=
  match ds with
  | [] => Some ""
  | d :: ds' =>
      match str_item ALPHABET d, numeral ds' with
      | Some c, Some s => Some (String c s)
      | _, _ => None
      end
  end.

(** Digit values, least-significant first (the order the loop emits). *)
Definition lsd_value (ds : list Z) : Z :=
  fold_right (fun d acc => d + base * acc) 0 ds.

(** A digit value of base 62. *)
Definition is_digit (d : Z) : Prop := 0 <= d < base.

(** [c] is the character of digit [d], and [d] is recovered from [c]. *)
Definition spells (d : Z) (c : ascii) : Prop :=
  str_item ALPHABET d = Some c /\ index_of c ALPHABET = Some d.

(** Every digit value indexes a character of [ALPHABET] from which
    [index_of] recovers it; checked by evaluation. *)
Definition digit_table_ok : bool :=
  forallb
    (fun k => match str_item ALPHABET (Z.of_nat k) with
              | Some c => match index_of c ALPHABET with
                          | Some d => d =? Z.of_nat k
                          | None => false
                          end
              | None => false
              end)
    (seq 0 62).

(** A list of digits, least-significant first, without zero at its
    most-significant end. *)
Definition trimmed (ds : list Z) : Prop := last ds <> Some 0.

End Base62.

(** ** app.py *)

Module App.
Import Base62.

(** *** Strings *)

(** [str.isspace] on the ASCII range: TAB, LF, VT, FF, CR, the four
    separators FS, GS, RS, US and the space. *)
Definition is_space (c : ascii) : bool :=
  let n := nat_of_ascii c in
  ((9 <=? n) && (n <=? 13) || (28 <=? n) && (n <=? 32))%nat.

Fixpoint lstrip_chars (l : list ascii) : list ascii :=
  match l with
  | c :: l' => if is_space c then lstrip_chars l' else l
  | [] => []
  end.

(** [s.strip()] *)
Definition strip (s : string) : string :=
  string_of_list_ascii
    (rev (lstrip_chars (rev (lstrip_chars (list_ascii_of_string s))))).

(** Truth value of a Python string: non-empty. *)
Definition truthy (s : string) : bool := negb (String.eqb s "").

(** One character of the class [[A-Za-z0-9_-]]. *)
Definition code_char (c : ascii) : bool :=
  let n := nat_of_ascii c in
  ((65 <=? n) && (n <=? 90) || (97 <=? n) && (n <=? 122)
   || (48 <=? n) && (n <=? 57) || (n =? 95) || (n =? 45))%nat.

(** [re.fullmatch(r"[A-Za-z0-9_-]{3,32}", s)] as a truth value. *)
Definition fullmatch_custom_code (s : string) : bool :=
  ((3 <=? String.length s) && (String.length s <=? 32))%nat
  && forallb code_char (list_ascii_of_string s).

(** *** Time *)

(** An instant: microseconds since 0001-01-01T00:00:00 UTC, the
    resolution and the origin of Python's [datetime]. *)
Definition datetime : Type := Z.

Definition US_PER_DAY : Z := 86400 * 1000000.

(** [datetime.max] is 9999-12-31T23:59:59.999999, the last microsecond
    of the day of ordinal 3652059. *)
Definition DATETIME_MAX : datetime := 3652059 * US_PER_DAY - 1.

(** [timedelta.max.days] *)
Definition TIMEDELTA_MAX_DAYS : Z := 999999999.

(** [now + timedelta(days=days)]; [None] stands for [OverflowError],
    raised by [timedelta] for too many days and by the addition for a
    date after [datetime.max]. *)
Definition add_days (now : datetime) (days : Z) : option datetime :=
  if (days <? - TIMEDELTA_MAX_DAYS) || (TIMEDELTA_MAX_DAYS <? days) then None
  else
    let t := now + days * US_PER_DAY in
    if (t <? 0) || (DATETIME_MAX <? t) then None else Some t.

(** How the table gives back a [DateTime(timezone=True)] value. On
    SQLite the column keeps no offset: an instant written with its UTC
    offset is read back naive. *)
Definition STORE_KEEPS_OFFSET : bool := false.

(** [now > stored], for [now] read from the clock with its UTC offset
    and [stored] read back from the table. Between a [datetime] with
    an offset and one without, Python raises [TypeError] ([None]). *)
Definition aware_gt_stored (now stored : datetime) : option bool :=
  if STORE_KEEPS_OFFSET then Some (now >? stored) else None.

(** The largest value of an SQLite [INTEGER]; binding a larger
    Python [int] raises [OverflowError]. *)
Definition SQLITE_INTEGER_MAX : Z := 2 ^ 63 - 1.

(** *** Models *)

Record UrlMap : Type := mkUrlMap {
  id : Z;
  long_url : string;
  short_code : option string;
  created_at : option datetime;
  hits : option Z;
  last_accessed : option datetime;
  expires_at : option datetime
}.

(** [UrlMap.is_expired], with [now] the clock read by the method:
    [self.expires_at is not None and now > self.expires_at]. [None]
    stands for the [TypeError] of the comparison. *)
Definition is_expired (now : datetime) (self : UrlMap) : option bool :=
  match expires_at self with
  | Some e => aware_gt_stored now e
  | None => Some false
  end.

Definition set_short_code (c : option string) (r : UrlMap) : UrlMap :=
  mkUrlMap (id r) (long_url r) c (created_at r) (hits r)
           (last_accessed r) (expires_at r).

Definition set_expires_at (e : option datetime) (r : UrlMap) : UrlMap :=
  mkUrlMap (id r) (long_url r) (short_code r) (created_at r) (hits r)
           (last_accessed r) e.

Definition set_hits (h : option Z) (r : UrlMap) : UrlMap :=
  mkUrlMap (id r) (long_url r) (short_code r) (created_at r) h
           (last_accessed r) (expires_at r).

Definition set_last_accessed (t : option datetime) (r : UrlMap) : UrlMap :=
  mkUrlMap (id r) (long_url r) (short_code r) (created_at r) (hits r)
           t (expires_at r).

(** The table [url_map]: its rows in insertion order. *)
Definition Table : Type := list UrlMap.

(** [UrlMap.query.filter_by(short_code=code).first()]: position and
    value of the first row with that code. A row whose code is NULL
    matches no code. *)
Definition find_by_code (code : string) (tbl : Table) : option (nat * UrlMap) :=
  list_find (fun r => short_code r = Some code) tbl.

(** [UrlMap.query.filter_by(long_url=long_url).first()] *)
Definition find_by_long_url (url : string) (tbl : Table) : option (nat * UrlMap) :=
  list_find (fun r => long_url r = url) tbl.

(** The primary key given to the next inserted row: one more than the
    largest key in the table. *)
Definition next_id (tbl : Table) : Z :=
  1 + fold_right Z.max 0 (map id tbl).

(** The unique index on [short_code]: no two rows carry the same
    non-NULL code. *)
Definition unique_codes (tbl : Table) : Prop :=
  NoDup (omap short_code tbl).

(** *** Requests and responses *)

(** Result of [urlparse], restricted to the attributes the program reads. *)
Record ParseResult : Type := mkParseResult {
  scheme : string;
  netloc : string
}.

(** The fields of the form posted to [/shorten]; a missing field reads
    as [""] ([request.form.get(name, "")]). *)
Record ShortenForm : Type := mkShortenForm {
  form_long_url : string;
  form_custom_code : string;
  form_expires_in : string
}.

(** The user-visible failures of [/shorten]: each is a flashed message
    followed by a redirect to the index page. *)
Inductive FlashError : Type :=
| invalid_url          (* "Please enter a valid URL ..." *)
| invalid_expiry       (* "Expiry must be a positive integer number of days." *)
| invalid_custom_code  (* "Custom code must be 3-32 chars: ..." *)
| code_taken.          (* "That short code is already taken. ..." *)

(** Exceptions that no handler catches. *)
Inductive Exn : Type :=
| UrlParseError    (* raised by [urlparse] outside [is_valid_url] *)
| OverflowError    (* raised by [timedelta], by the date addition, or by
                      the commit of an integer beyond 64 bits *)
| IntegrityError   (* raised by the commit that breaks the unique index *)
| TypeError        (* [host_url + None]; a [datetime] with an offset
                      compared with one without *)
| IndexError.      (* [ALPHABET[rem]] out of range *)

(** The body of the JSON answer of [/api/expand/<code>]. Instants stand
    for their [isoformat()] text. *)
Record ExpandView : Type := mkExpandView {
  v_code : option string;
  v_long_url : string;
  v_hits : option Z;
  v_created_at : option datetime;
  v_last_accessed : option datetime;
  v_expires_at : option datetime;
  v_expired : bool
}.

Inductive Response : Type :=
| Flash (e : FlashError)
| Success (code : string) (url : string) (expires : option datetime)
| RedirectTo (location : string)        (* 302 *)
| NotFound                            (* abort(404) *)
| StatsPage (item : UrlMap)           (* stats.html rendered with [item] *)
| ExpandJson (v : ExpandView)         (* 200 *)
| ExpandNotFound                      (* 404, {"error": "not_found"} *)
| ServerError (e : Exn).              (* 500 *)

(** A step of a handler: an early return, or a value to go on with. *)
Definition Step (A : Type) : Type := Response + A.

(** [request.form.get("custom_code", "").strip() or None] *)
Definition custom_code_of (form : ShortenForm) : option string :=
  let c := strip (form_custom_code form) in
  if truthy c then Some c else None.

Section Handlers.

(** The two library functions whose results the handlers branch on.
    [None] stands for a raised exception ([ValueError] for [int]). *)
Variable urlparse : string -> option ParseResult.
Variable py_int : string -> option Z.

(** [is_valid_url]: every exception of the body is caught and gives
    [False]. *)
Definition is_valid_url (url : string) : bool :=
  match urlparse url with
  | Some parsed =>
      if negb (String.eqb (scheme parsed) "http"
               || String.eqb (scheme parsed) "https") then false
      else if negb (truthy (netloc parsed)) then false
      else true
  | None => false
  end.

(** "Normalize long_url: if missing scheme, try adding https://".
    This call of [urlparse] is outside any [try]. *)
Definition normalize_long_url (long_url : string) : Step string :=
  if truthy long_url then
    match urlparse long_url with
    | Some parsed =>
        if negb (truthy (scheme parsed))
        then inr ("https://" ++ long_url)%string
        else inr long_url
    | None => inl (ServerError UrlParseError)
    end
  else inr long_url.

(** The expiry of the request, [now] being the clock read in the
    [try] block. Only [ValueError] is caught there. *)
Definition compute_expires_at (now : datetime) (expires_in_days : string)
  : Step (option datetime) :=
  if truthy expires_in_days then
    match py_int expires_in_days with
    | Some days =>
        if days <=? 0 then inl (Flash invalid_expiry)
        else match add_days now days with
             | Some t => inr (Some t)
             | None => inl (ServerError OverflowError)
             end
    | None => inl (Flash invalid_expiry)
    end
  else inr None.

(** "Validate custom code" *)
Definition validate_custom_code (custom_code : option string) (tbl : Table)
  : Step unit :=
  match custom_code with
  | Some c =>
      if negb (fullmatch_custom_code c) then inl (Flash invalid_custom_code)
      else match find_by_code c tbl with
           | Some _ => inl (Flash code_taken)
           | None => inr tt
           end
  | None => inr tt
  end.

(** The branch that reuses [existing], found at position [i]. *)
Definition reuse_existing (i : nat) (existing : UrlMap)
    (long_url' : string) (expires_at' : option datetime) (tbl : Table)
  : Response * Table :=
  let existing' :=
    match expires_at' with
    | Some _ => set_expires_at expires_at' existing
    | None => existing
    end in
  let tbl' :=
    match expires_at' with
    | Some _ => <[i := existing']> tbl
    | None => tbl
    end in
  match short_code existing' with
  | Some c => (Success c long_url' (expires_at existing'), tbl')
  | None => (ServerError TypeError, tbl')
  end.

(** The branch that inserts a row, [now] being the clock read by the
    default of [created_at]. The first commit stores the row without
    a code; the second stores the code and fails if the unique index
    already holds it. *)
Definition create_row (now : datetime) (custom_code : option string)
    (long_url' : string) (expires_at' : option datetime) (tbl : Table)
  : Response * Table :=
  let row :=
    mkUrlMap (next_id tbl) long_url' None (Some now) (Some 0) None expires_at' in
  let code :=
    match custom_code with
    | Some c => Some c
    | None => encode_base62 (id row)
    end in
  match code with
  | Some c =>
      match find_by_code c tbl with
      | Some _ => (ServerError IntegrityError, tbl ++ [row])
      | None => (Success c long_url' expires_at',
                 tbl ++ [set_short_code (Some c) row])
      end
  | None => (ServerError IndexError, tbl ++ [row])
  end.

(** [POST /shorten]. [t_expiry] and [t_insert] are the clock reads of
    the expiry computation and of the insertion. The QR image written
    by [_ensure_qr_for_code] is outside the table and is left out. *)
Definition shorten (t_expiry t_insert : datetime) (form : ShortenForm)
    (tbl : Table) : Response * Table :=
  let long_url0 := strip (form_long_url form) in
  let custom_code := custom_code_of form in
  let expires_in_days := strip (form_expires_in form) in
  match normalize_long_url long_url0 with
  | inl r => (r, tbl)
  | inr long_url' =>
      if negb (is_valid_url long_url') then (Flash invalid_url, tbl)
      else
        match compute_expires_at t_expiry expires_in_days with
        | inl r => (r, tbl)
        | inr expires_at' =>
            match validate_custom_code custom_code tbl with
            | inl r => (r, tbl)
            | inr _ =>
                match find_by_long_url long_url' tbl, custom_code with
                | Some (i, existing), None =>
                    reuse_existing i existing long_url' expires_at' tbl
                | _, _ =>
                    create_row t_insert custom_code long_url' expires_at' tbl
                end
            end
        end
  end.

(** The request passes the checks of the URL and of the expiry, with
    [u] the normalized URL and [e] the computed expiry. *)
Definition passes_url_and_expiry (t_expiry : datetime) (form : ShortenForm)
    (u : string) (e : option datetime) : Prop :=
  normalize_long_url (strip (form_long_url form)) = inr u
  /\ is_valid_url u = true
  /\ compute_expires_at t_expiry (strip (form_expires_in form)) = inr e.

End Handlers.

(** [item.hits or 0] *)
Definition hits_or_0 (r : UrlMap) : Z :=
  match hits r with
  | Some h => h
  | None => 0
  end.

(** [GET /<code>]. [t_check] is the clock read by [is_expired],
    [t_access] the one stored in [last_accessed]. The commit fails,
    and writes nothing, when the new hit count has no room in the
    column. *)
Definition redirect_code (t_check t_access : datetime) (code : string)
    (tbl : Table) : Response * Table :=
  match find_by_code code tbl with
  | Some (i, item) =>
      match is_expired t_check item with
      | Some true => (NotFound, tbl)
      | Some false =>
          let item' :=
            set_last_accessed (Some t_access)
              (set_hits (Some (hits_or_0 item + 1)) item) in
          if SQLITE_INTEGER_MAX <? hits_or_0 item + 1
          then (ServerError OverflowError, tbl)
          else (RedirectTo (long_url item), <[i := item']> tbl)
      | None => (ServerError TypeError, tbl)
      end
  | None => (NotFound, tbl)
  end.

(** The row written back by a successful redirect. *)
Definition touched (t_access : datetime) (r : UrlMap) : UrlMap :=
  mkUrlMap (id r) (long_url r) (short_code r) (created_at r)
           (Some (hits_or_0 r + 1)) (Some t_access) (expires_at r).

(** [GET /stats/<code>] *)
Definition stats (code : string) (tbl : Table) : Response * Table :=
  match find_by_code code tbl with
  | Some (_, item) => (StatsPage item, tbl)
  | None => (NotFound, tbl)
  end.

(** [GET /api/expand/<code>], [now] being the clock read by
    [is_expired]. *)
Definition api_expand (now : datetime) (code : string) (tbl : Table)
  : Response * Table :=
  match find_by_code code tbl with
  | Some (_, item) =>
      match is_expired now item with
      | Some expired =>
          (ExpandJson
             (mkExpandView (short_code item) (long_url item) (hits item)
                (created_at item) (last_accessed item) (expires_at item)
                expired),
           tbl)
      | None => (ServerError TypeError, tbl)
      end
  | None => (ExpandNotFound, tbl)
  end.



End App.

(** ** Reference models of the library functions

    The handlers are parametric in [urlparse] and [int]. The models
    below follow CPython (3.11 and later) on ASCII input and serve to
    run the handlers on concrete requests. *)

Module PyRef.
Import App.

Definition char_in (lo hi : nat) (c : ascii) : bool :=
  ((lo <=? nat_of_ascii c) && (nat_of_ascii c <=? hi))%nat.

Definition is_upper : ascii -> bool := char_in 65 90.
Definition is_lower : ascii -> bool := char_in 97 122.
Definition is_decimal : ascii -> bool := char_in 48 57.
Definition is_alpha (c : ascii) : bool := is_upper c || is_lower c.

(** A character of [urllib.parse.scheme_chars]. *)
Definition is_scheme_char (c : ascii) : bool :=
  is_alpha c || is_decimal c
  || Ascii.eqb c "+" || Ascii.eqb c "-" || Ascii.eqb c ".".

Definition lower (c : ascii) : ascii :=
  if is_upper c then ascii_of_nat (nat_of_ascii c + 32) else c.

(** [url.lstrip(_WHATWG_C0_CONTROL_OR_SPACE)] *)
Fixpoint lstrip_c0 (l : list ascii) : list ascii :=
  match l with
  | c :: l' => if char_in 0 32 c then lstrip_c0 l' else l
  | [] => []
  end.

(** TAB, LF and CR are removed wherever they stand. *)
Definition is_unsafe (c : ascii) : bool :=
  Ascii.eqb c "009" || Ascii.eqb c "010" || Ascii.eqb c "013".

(** [l] cut at the first character that satisfies [p]: what stands
    before it, and the rest from that character on. *)
Fixpoint break_at (p : ascii -> bool) (l : list ascii)
  : list ascii * list ascii :=
  match l with
  | c :: l' =>
      if p c then ([], l)
      else let '(a, b) := break_at p l' in (c :: a, b)
  | [] => ([], [])
  end.

Definition has_char (c : ascii) (l : list ascii) : bool :=
  existsb (Ascii.eqb c) l.

(** [urlparse(url)], attributes [scheme] and [netloc]. The text before
    the first colon is the scheme when it starts with a letter and
    holds scheme characters only; the text between a leading [//] and
    the next [/], [?] or [#] is the network location. Brackets that do
    not pair raise [ValueError]; the address between paired brackets
    is not checked. *)
Definition urlparse (url : string) : option ParseResult :=
  let u := filter (fun c => negb (is_unsafe c))
             (lstrip_c0 (list_ascii_of_string url)) in
  let '(sch, rest) :=
    match break_at (Ascii.eqb ":") u with
    | (c :: pre, _ :: after) =>
        if is_alpha c && forallb is_scheme_char (c :: pre)
        then (map lower (c :: pre), after)
        else ([], u)
    | _ => ([], u)
    end in
  match rest with
  | "/"%char :: "/"%char :: r =>
      let loc :=
        fst (break_at (fun c => Ascii.eqb c "/" || Ascii.eqb c "?"
                                || Ascii.eqb c "#") r) in
      if xorb (has_char "[" loc) (has_char "]" loc) then None
      else Some (mkParseResult (string_of_list_ascii sch)
                               (string_of_list_ascii loc))
  | _ => Some (mkParseResult (string_of_list_ascii sch) "")
  end.

(** [ParseResult.hostname] of a result with network location
    [netloc]: what stands after the last [@], then between brackets
    if one opens, else before the first colon; in lower case up to a
    [%]. The empty string stands for [None]. *)
Definition hostname (netloc : string) : string :=
  let l := list_ascii_of_string netloc in
  let hostinfo := rev (fst (break_at (Ascii.eqb "@") (rev l))) in
  let host :=
    match break_at (Ascii.eqb "[") hostinfo with
    | (_, _ :: bracketed) => fst (break_at (Ascii.eqb "]") bracketed)
    | (_, []) => fst (break_at (Ascii.eqb ":") hostinfo)
    end in
  let '(name, zone) := break_at (Ascii.eqb "%") host in
  string_of_list_ascii (map lower name ++ zone).

(** The decimal digits of an [int] literal: groups of digits joined by
    single underscores. [seen] tells that the previous character was a
    digit. *)
Fixpoint int_digits (acc : Z) (seen : bool) (l : list ascii) : option Z :=
  match l with
  | [] => if seen then Some acc else None
  | c :: l' =>
      if is_decimal c
      then int_digits (acc * 10 + Z.of_nat (nat_of_ascii c - 48)) true l'
      else if Ascii.eqb c "_" && seen then int_digits acc false l'
      else None
  end.

(** [sys.int_info.default_max_str_digits] *)
Definition MAX_STR_DIGITS : nat := 4300.

(** [int(s)]: surrounding whitespace, an optional sign, the digits.
    [None] stands for [ValueError], which a literal of more than
    [MAX_STR_DIGITS] digits raises too. *)
Definition py_int (s : string) : option Z :=
  let l := list_ascii_of_string (strip s) in
  if (MAX_STR_DIGITS <? length (filter (fun c => is_decimal c) l))%nat
  then None
  else
    match l with
    | "+"%char :: l' => int_digits 0 false l'
    | "-"%char :: l' => Z.opp <$> int_digits 0 false l'
    | _ => int_digits 0 false l
    end.

(** The handlers on the reference models. *)
Definition is_valid_url : string -> bool := App.is_valid_url urlparse.
Definition shorten := App.shorten urlparse py_int.

End PyRef.

(** ** Sample data *)

Module Samples.
Import App.

(** A small table for running the handlers: one live link, one link
    that expired at instant 500, one link with a custom code. *)
Definition row_live : UrlMap :=
  mkUrlMap 1 "https://example.com/path" (Some "1") (Some 100) (Some 4)
           (Some 250) None.
Definition row_expired : UrlMap :=
  mkUrlMap 2 "https://example.org/" (Some "2") (Some 200) (Some 0)
           None (Some 500).
Definition row_custom : UrlMap :=
  mkUrlMap 3 "https://example.net/" (Some "my_code") (Some 300) (Some 0)
           None None.
Definition sample_table : Table := [row_live; row_expired; row_custom].

(** An instant of the year 2026, for the clock of the examples. *)
Definition t_2026 : datetime := 739900 * US_PER_DAY.

(** The row that a first request for "example.com/new" at [t_2026]
    adds to [sample_table]. *)
Definition row_new : UrlMap :=
  mkUrlMap 4 "https://example.com/new" (Some "4") (Some t_2026) (Some 0)
           None None.

(** A table whose next generated code, ["100"] for id 3844, is held
    by a custom code; and the table after a request met that code. *)
Definition row_holds_100 : UrlMap :=
  mkUrlMap 3843 "https://example.com/a" (Some "100") (Some 5) (Some 0)
           None None.
Definition row_codeless : UrlMap :=
  mkUrlMap 3844 "https://example.com/b" None (Some t_2026) (Some 0)
           None None.

End Samples.

(** ** Invariants of the table *)

Module Invariants.
Import Base62 App.

(** The primary key: no two rows carry the same [id]. *)
Definition unique_ids (tbl : Table) : Prop := NoDup (map id tbl).

(** A table in which no custom code was ever asked for: every row has
    a positive [id] and carries the code generated from it. *)
Definition auto_coded (tbl : Table) : Prop :=
  Forall (fun r => 0 < id r /\ short_code r = encode_base62 (id r)) tbl.

(** Every stored URL passes [is_valid_url]. *)
Definition valid_urls (urlparse : string -> option ParseResult)
    (tbl : Table) : Prop :=
  Forall (fun r => is_valid_url urlparse (long_url r) = true) tbl.

End Invariants.

(** ** The QR images *)

Module Qr.

(** [posixpath.join(a, b)] *)
Definition path_join (a b : string) : string :=
  match b with
  | String "/" _ => b
  | _ =>
      if String.eqb a "" then (a ++ b)%string
      else
        match String.get (String.length a - 1) a with
        | Some "/"%char => (a ++ b)%string
        | _ => (a ++ "/" ++ b)%string
        end
  end.

Section Qr.

(** The images and [qrcode.make], which the program takes from a
    library; [root_path] is [app.root_path]. *)
Variable Image : Type.
Variable qrcode_make : string -> Image.
Variable root_path : string.

Definition qr_folder : string :=
  path_join (path_join root_path "static") "qr".

(** [os.path.join(qr_folder, f"{code}.png")] *)
Definition img_path (code : string) : string :=
  path_join qr_folder (code ++ ".png")%string.

(** [_ensure_qr_for_code(code, host_url)] on the files of the disk, a
    finite map from paths to contents. Directories are not modelled:
    [os.makedirs(qr_folder, exist_ok=True)] writes no file. *)
Definition ensure_qr_for_code (code host_url : string)
    (files : gmap string Image) : gmap string Image :=
  let short_url := (host_url ++ code)%string in
  match files !! img_path code with
  | Some _ => files
  | None => <[img_path code := qrcode_make short_url]> files
  end.

End Qr.

End Qr.

(** ** Running the definitions *)

Example enc0 : Base62.encode_base62 0 = Some "0".
Proof. reflexivity. Qed.
Example enc61 : Base62.encode_base62 61 = Some "Z".
Proof. reflexivity. Qed.
Example enc62 : Base62.encode_base62 62 = Some "10".
Proof. reflexivity. Qed.
Example enc3844 : Base62.encode_base62 3844 = Some "100".
Proof. reflexivity. Qed.
Example encbig : Base62.encode_base62 1000000007 = Some "15FTGn".
Proof. vm_compute. reflexivity. Qed.
Example encneg : Base62.encode_base62 (-5) = Some "".
Proof. reflexivity. Qed.
Example urlparse_https :
  PyRef.urlparse "https://example.com/path"
  = Some (App.mkParseResult "https" "example.com").
Proof. reflexivity. Qed.
Example urlparse_upper :
  PyRef.urlparse "HTTP://Example.com:80?q"
  = Some (App.mkParseResult "http" "Example.com:80").
Proof. reflexivity. Qed.
Example urlparse_bare :
  PyRef.urlparse "example.com/path" = Some (App.mkParseResult "" "").
Proof. reflexivity. Qed.
Example urlparse_empty : PyRef.urlparse "" = Some (App.mkParseResult "" "").
Proof. reflexivity. Qed.
Example hostname_plain :
  PyRef.hostname "user:pw@Example.com:8080" = "example.com".
Proof. reflexivity. Qed.
Example hostname_v6 : PyRef.hostname "[::1]:443" = "::1".
Proof. reflexivity. Qed.
Example hostname_port_only : PyRef.hostname ":80" = "".
Proof. reflexivity. Qed.
Example urlparse_bracket : PyRef.urlparse "//[" = None.
Proof. reflexivity. Qed.
Example int_minus1 : PyRef.py_int "-1" = Some (-1).
Proof. reflexivity. Qed.
Example int_under : PyRef.py_int " +1_000 " = Some 1000.
Proof. reflexivity. Qed.
Example int_bad : PyRef.py_int "1__0" = None.
Proof. reflexivity. Qed.
Example int_word : PyRef.py_int "soon" = None.
Proof. reflexivity. Qed.
Example strip_ex : App.strip "  a b  " = "a b".
Proof. reflexivity. Qed.

Example img_path_ex :
  Qr.img_path "/srv/app" "my_code" = "/srv/app/static/qr/my_code.png".
Proof. reflexivity. Qed.

(** Scenarios of the specification, on an empty table. *)

Example scenario_no_scheme :
  PyRef.shorten Samples.t_2026 Samples.t_2026
    (App.mkShortenForm "example.com/path" "" "") []
  = (App.Success "1" "https://example.com/path" None,
     [App.mkUrlMap 1 "https://example.com/path" (Some "1")
        (Some Samples.t_2026) (Some 0) None None]).
Proof. reflexivity. Qed.

Example scenario_resolve :
  fst (App.redirect_code 10 11 "1"
         [App.mkUrlMap 1 "https://example.com/path" (Some "1") (Some 5)
            (Some 0) None None])
  = App.RedirectTo "https://example.com/path".
Proof. reflexivity. Qed.

Example scenario_custom_code :
  PyRef.shorten Samples.t_2026 Samples.t_2026
    (App.mkShortenForm "https://example.com/a" "my_code" "") []
  = (App.Success "my_code" "https://example.com/a" None,
     [App.mkUrlMap 1 "https://example.com/a" (Some "my_code")
        (Some Samples.t_2026) (Some 0) None None]).
Proof. reflexivity. Qed.

Example scenario_unknown_code :
  App.redirect_code 10 11 "nope" Samples.sample_table
  = (App.NotFound, Samples.sample_table)
  /\ App.api_expand 10 "nope" Samples.sample_table
     = (App.ExpandNotFound, Samples.sample_table).
Proof. split; reflexivity. Qed.

(** A link made with an expiry of seven days, visited at once: the
    comparison of [is_expired] raises. *)
Example redirect_with_expiry :
  PyRef.shorten Samples.t_2026 Samples.t_2026
    (App.mkShortenForm "https://example.com/a" "" "7") []
  = (App.Success "1" "https://example.com/a"
       (Some (Samples.t_2026 + 7 * App.US_PER_DAY)),
     [App.mkUrlMap 1 "https://example.com/a" (Some "1")
        (Some Samples.t_2026) (Some 0) None
        (Some (Samples.t_2026 + 7 * App.US_PER_DAY))])
  /\ fst (App.redirect_code (Samples.t_2026 + 1) (Samples.t_2026 + 2) "1"
            [App.mkUrlMap 1 "https://example.com/a" (Some "1")
               (Some Samples.t_2026) (Some 0) None
               (Some (Samples.t_2026 + 7 * App.US_PER_DAY))])
     = App.ServerError App.TypeError.
Proof. split; reflexivity. Qed.

(** More days than [timedelta] holds: the exception is not caught. *)
Example shorten_overflow :
  PyRef.shorten Samples.t_2026 Samples.t_2026
    (App.mkShortenForm "https://example.com/a" "" "1000000000") []
  = (App.ServerError App.OverflowError, []).
Proof. reflexivity. Qed.

(** A generated code that meets a custom code: the second commit
    fails and leaves the row without code; asking again for the same
    URL then fails on that row. *)
Example shorten_generated_code_taken :
  PyRef.shorten Samples.t_2026 Samples.t_2026
    (App.mkShortenForm "https://example.com/b" "" "")
    [App.mkUrlMap 3843 "https://example.com/a" (Some "100") (Some 5)
       (Some 0) None None]
  = (App.ServerError App.IntegrityError,
     [App.mkUrlMap 3843 "https://example.com/a" (Some "100") (Some 5)
        (Some 0) None None;
      App.mkUrlMap 3844 "https://example.com/b" None (Some Samples.t_2026)
        (Some 0) None None])
  /\ fst (PyRef.shorten Samples.t_2026 Samples.t_2026
            (App.mkShortenForm "https://example.com/b" "" "")
            [App.mkUrlMap 3843 "https://example.com/a" (Some "100") (Some 5)
               (Some 0) None None;
             App.mkUrlMap 3844 "https://example.com/b" None
               (Some Samples.t_2026) (Some 0) None None])
     = App.ServerError App.TypeError.
Proof. split; reflexivity. Qed.

(** ** Properties of the encoder *)

Module Base62Facts.
Import Base62.

Lemma digit_spelled (d : Z) : is_digit d -> exists c, spells d c.
Proof.
  intros [Hlo Hhi]. change base with 62 in Hhi.
  assert (Ht : digit_table_ok = true) by (vm_compute; reflexivity).
  unfold digit_table_ok in Ht. rewrite forallb_forall in Ht.
  specialize (Ht (Z.to_nat d)).
  rewrite Z2Nat.id in Ht by lia.
  assert (Hin : In (Z.to_nat d) (seq 0 62)) by (apply in_seq; lia).
  specialize (Ht Hin). unfold spells.
  destruct (str_item ALPHABET d) as [c|]; [|discriminate].
  exists c. split; [reflexivity|].
  destruct (index_of c ALPHABET) as [d'|]; [|discriminate].
  apply Z.eqb_eq in Ht. congruence.
Qed.

Lemma lsd_value_snoc (ds : list Z) (d : Z) :
  lsd_value (ds ++ [d]) = lsd_value ds + d * base ^ Z.of_nat (length ds).
Proof.
  induction ds as [|x ds IH]; cbn [lsd_value fold_right app length].
  - rewrite Z.pow_0_r. fold (lsd_value []). cbn. lia.
  - fold (lsd_value (ds ++ [d])). fold (lsd_value ds). rewrite IH.
    rewrite Nat2Z.inj_succ, Z.pow_succ_r by lia. lia.
Qed.

Lemma digits_value_rev (ds : list Z) :
  digits_value (rev ds) = lsd_value ds.
Proof.
  unfold digits_value, lsd_value.
  rewrite <- fold_left_rev_right, rev_involutive.
  induction ds as [|d ds IH]; [reflexivity|].
  cbn [fold_right]. rewrite IH. lia.
Qed.

(** What one run of the loop appends to [out]: the characters of the
    base-62 digits of [n], least-significant first, the last one not
    zero. *)
Lemma encode_loop_digits (n : Z) (out : list ascii) :
  0 <= n ->
  exists ds cs,
    encode_loop n out = Some (out ++ cs)
    /\ Forall2 spells ds cs
    /\ Forall is_digit ds
    /\ lsd_value ds = n
    /\ (n = 0 -> ds = [])
    /\ (n > 0 -> exists ds' d, ds = ds' ++ [d] /\ d <> 0).
Proof.
  funelim (encode_loop n out); intros Hn.
  - (* n > 0 *)
    assert (Hb : base = 62) by reflexivity.
    assert (Hd : is_digit (n mod base)).
    { unfold is_digit. apply Z.mod_pos_bound. lia. }
    destruct (digit_spelled _ Hd) as [c Hc].
    destruct Hc as [Hc1 Hc2]. rewrite Hc1.
    assert (Hq : 0 <= n / base) by (apply Z.div_pos; lia).
    destruct (H c Hq) as (ds & cs & He & Hsp & Hdg & Hv & Hz & Hp).
    exists (n mod base :: ds), (c :: cs).
    split; [rewrite He, <- app_assoc; reflexivity|].
    split; [constructor; [split; assumption | assumption]|].
    split; [constructor; assumption|].
    split.
    { cbn [lsd_value fold_right]. fold (lsd_value ds). rewrite Hv.
      pose proof (Z.div_mod n base). lia. }
    split; [lia|].
    intros _. destruct (Z.eq_dec (n / base) 0) as [E|E].
    + rewrite (Hz E). exists [], (n mod base). split; [reflexivity|].
      pose proof (Z.div_mod n base). lia.
    + destruct Hp as (ds' & d & -> & Hd0); [lia|].
      exists (n mod base :: ds'), d. split; [reflexivity | assumption].
  - (* n <= 0 *)
    exists [], []. rewrite app_nil_r.
    repeat split; try constructor; try lia.
    cbn. lia.
Qed.

Lemma numeral_spells (ds : list Z) (cs : list ascii) :
  Forall2 spells ds cs -> numeral ds = Some (string_of_list_ascii cs).
Proof.
  induction 1 as [|d c ds cs [Hc _] _ IH]; [reflexivity|].
  cbn [numeral string_of_list_ascii]. rewrite Hc, IH. reflexivity.
Qed.

Lemma decode_from_spells (ds : list Z) (cs : list ascii) (acc : Z) :
  Forall2 spells ds cs ->
  decode_from acc (string_of_list_ascii cs)
  = Some (fold_left (fun a d => a * base + d) ds acc).
Proof.
  intros H. revert acc.
  induction H as [|d c ds cs [_ Hc] _ IH]; intros acc; [reflexivity|].
  cbn [decode_from string_of_list_ascii fold_left]. rewrite Hc. apply IH.
Qed.

Lemma spells_rev (ds : list Z) (cs : list ascii) :
  Forall2 spells ds cs -> Forall2 spells (rev ds) (rev cs).
Proof.
  induction 1 as [|d c ds cs Hdc _ IH]; [constructor|].
  cbn [rev]. apply Forall2_app; [exact IH | constructor; [exact Hdc | constructor]].
Qed.

Lemma spells_zero_char (d : Z) : spells d "0"%char -> d = 0.
Proof. intros [_ H]. vm_compute in H. congruence. Qed.

(** *** Uniqueness of the positional representation *)

Lemma lsd_value_nonneg (ds : list Z) : Forall is_digit ds -> 0 <= lsd_value ds.
Proof.
  induction 1 as [|d ds [Hd _] _ IH]; cbn [lsd_value fold_right]; [lia|].
  fold (lsd_value ds). change base with 62. lia.
Qed.

Lemma trimmed_tail (d : Z) (ds : list Z) : trimmed (d :: ds) -> trimmed ds.
Proof.
  unfold trimmed. rewrite last_cons. destruct (last ds); congruence.
Qed.

Lemma lsd_value_zero (ds : list Z) :
  Forall is_digit ds -> trimmed ds -> lsd_value ds = 0 -> ds = [].
Proof.
  induction 1 as [|d ds [Hd _] Hds IH]; intros Ht Hv; [reflexivity|].
  exfalso. cbn [lsd_value fold_right] in Hv. fold (lsd_value ds) in Hv.
  pose proof (lsd_value_nonneg ds Hds) as Hnn. change base with 62 in Hv.
  assert (d = 0) by lia. assert (Hz : lsd_value ds = 0) by lia. subst d.
  rewrite (IH (trimmed_tail _ _ Ht) Hz) in Ht. apply Ht. reflexivity.
Qed.

Lemma lsd_value_inj (ds1 ds2 : list Z) :
  Forall is_digit ds1 -> Forall is_digit ds2 ->
  trimmed ds1 -> trimmed ds2 ->
  lsd_value ds1 = lsd_value ds2 -> ds1 = ds2.
Proof.
  intros H1. revert ds2.
  induction H1 as [|d1 ds1 Hd1 Hds1 IH]; intros ds2 H2 T1 T2 Hv.
  - symmetry. apply lsd_value_zero; [assumption | assumption|].
    rewrite <- Hv. reflexivity.
  - destruct H2 as [|d2 ds2 Hd2 Hds2].
    + apply lsd_value_zero; [constructor; assumption | assumption | exact Hv].
    + cbn [lsd_value fold_right] in Hv.
      fold (lsd_value ds1) in Hv. fold (lsd_value ds2) in Hv.
      destruct Hd1, Hd2. change base with 62 in *.
      assert (d1 = d2) by lia. assert (lsd_value ds1 = lsd_value ds2) by lia.
      subst d2. f_equal.
      apply IH; eauto using trimmed_tail.
Qed.

(** Two lists of digits, most-significant first and without leading
    zero, that have the same value are the same list. *)
Lemma digits_value_inj (ds1 ds2 : list Z) :
  Forall is_digit ds1 -> Forall is_digit ds2 ->
  head ds1 <> Some 0 -> head ds2 <> Some 0 ->
  digits_value ds1 = digits_value ds2 -> ds1 = ds2.
Proof.
  intros H1 H2 L1 L2 Hv.
  rewrite <- (rev_involutive ds1), <- (rev_involutive ds2) in Hv.
  rewrite !digits_value_rev in Hv.
  assert (Ht : forall ds : list Z, head ds <> Some 0 -> trimmed (rev ds)).
  { intros [|d ds] Hh; unfold trimmed; cbn [rev]; [discriminate|].
    rewrite last_snoc. exact Hh. }
  apply lsd_value_inj in Hv; auto using Forall_rev.
  rewrite <- (rev_involutive ds1), Hv. apply rev_involutive.
Qed.

(** The result for a positive argument, in terms of its digits read
    most-significant first. *)
Lemma encode_base62_digits (n : Z) :
  n > 0 ->
  exists d ds c cs,
    encode_base62 n = Some (string_of_list_ascii (c :: cs))
    /\ Forall2 spells (d :: ds) (c :: cs)
    /\ Forall is_digit (d :: ds)
    /\ d <> 0
    /\ digits_value (d :: ds) = n.
Proof.
  intros Hn.
  destruct (encode_loop_digits n [] ltac:(lia))
    as (ds & cs & He & Hsp & Hdg & Hv & _ & Hp).
  destruct (Hp Hn) as (ds' & d & -> & Hd0).
  apply spells_rev in Hsp. rewrite rev_app_distr in Hsp. cbn [rev app] in Hsp.
  destruct (rev cs) as [|c rcs] eqn:Hr; [inversion Hsp|].
  exists d, (rev ds'), c, rcs.
  split.
  { unfold encode_base62. destruct (Z.eqb_spec n 0) as [|_]; [lia|].
    rewrite He. cbn [app]. rewrite Hr. reflexivity. }
  split; [assumption|].
  split.
  { apply Forall_rev in Hdg. rewrite rev_app_distr in Hdg. exact Hdg. }
  split; [assumption|].
  change (d :: rev ds') with (rev [d] ++ rev ds').
  rewrite <- rev_app_distr, digits_value_rev. exact Hv.
Qed.

(** C1. For every [n >= 0], [encode_base62 n] returns a string, and
    reading that string as a base-62 numeral over [ALPHABET]
    (most-significant digit first, digit value = index in the
    alphabet) gives [n] back. *)
Theorem encode_base62_roundtrip (n : Z) :
  0 <= n ->
  exists s, encode_base62 n = Some s /\ decode_base62 s = Some n.
Proof.
  intros Hn. destruct (Z.eq_dec n 0) as [->|Hne].
  - exists "0". split; reflexivity.
  - destruct (encode_base62_digits n ltac:(lia))
      as (d & ds & c & cs & He & Hsp & _ & _ & Hv).
    exists (string_of_list_ascii (c :: cs)). split; [assumption|].
    unfold decode_base62. rewrite (decode_from_spells _ _ 0 Hsp).
    f_equal. exact Hv.
Qed.

Lemma encode_base62_roundtrip_witness :
  0 <= 238327 /\
  exists s, encode_base62 238327 = Some s /\ decode_base62 s = Some 238327.
Proof. split; [lia | apply (encode_base62_roundtrip 238327); lia]. Defined.

(** C2. [encode_base62 0 = "0"]; for [n > 0] the result is the numeral
    of a list of base-62 digits, most-significant first, whose value
    is [n] and whose leading digit is not zero, so that its first
    character is not ["0"]; that list is the only list of digits
    without leading zero whose value is [n]. *)
Theorem encode_base62_positional :
  encode_base62 0 = Some "0"
  /\ forall n, n > 0 ->
       exists d ds s,
         encode_base62 n = Some s
         /\ numeral (d :: ds) = Some s
         /\ Forall is_digit (d :: ds)
         /\ digits_value (d :: ds) = n
         /\ d <> 0
         /\ (exists c, String.get 0 s = Some c /\ c <> "0"%char)
         /\ (forall ds' : list Z,
               Forall is_digit ds' -> head ds' <> Some 0 ->
               digits_value ds' = n -> ds' = d :: ds).
Proof.
  split; [reflexivity|]. intros n Hn.
  destruct (encode_base62_digits n Hn)
    as (d & ds & c & cs & He & Hsp & Hdg & Hd0 & Hv).
  exists d, ds, (string_of_list_ascii (c :: cs)).
  split; [assumption|].
  split; [apply numeral_spells; assumption|].
  split; [assumption|]. split; [assumption|]. split; [assumption|].
  split.
  { exists c. split; [reflexivity|].
    intros Hc. apply Hd0. apply spells_zero_char.
    rewrite <- Hc. eapply Forall2_cons_1. exact Hsp. }
  intros ds' Hdg' Hh' Hv'.
  apply digits_value_inj; try assumption; [|congruence].
  cbn. congruence.
Qed.

Lemma encode_base62_positional_witness :
  encode_base62 0 = Some "0"
  /\ (3843 > 0 /\
      exists d ds s,
         encode_base62 3843 = Some s
         /\ numeral (d :: ds) = Some s
         /\ Forall is_digit (d :: ds)
         /\ digits_value (d :: ds) = 3843
         /\ d <> 0
         /\ (exists c, String.get 0 s = Some c /\ c <> "0"%char)
         /\ (forall ds' : list Z,
               Forall is_digit ds' -> head ds' <> Some 0 ->
               digits_value ds' = 3843 -> ds' = d :: ds)).
Proof.
  split; [apply encode_base62_positional|].
  split; [lia | apply (proj2 encode_base62_positional 3843); lia].
Defined.

(** C10. For every negative [n] the loop body never runs and
    [encode_base62 n] is the empty string; no exception is raised and
    no digit is produced. *)
Theorem encode_base62_negative (n : Z) :
  n < 0 -> encode_base62 n = Some "".
Proof.
  intros Hn. unfold encode_base62.
  destruct (Z.eqb_spec n 0) as [|_]; [lia|].
  simp encode_loop. destruct (Z_gt_dec n 0) as [Hpos|Hle]; [lia|].
  reflexivity.
Qed.

Lemma encode_base62_negative_witness :
  -7 < 0 /\ encode_base62 (-7) = Some "".
Proof. split; [lia | apply (encode_base62_negative (-7)); lia]. Defined.

End Base62Facts.

(** ** Properties of the handlers *)

Module AppFacts.
Import App Samples.

(** *** Lookups *)

Lemma find_by_code_None (code : string) (tbl : Table) :
  find_by_code code tbl = None
  <-> forall r, r ∈ tbl -> short_code r <> Some code.
Proof.
  unfold find_by_code. rewrite list_find_None, Forall_forall. reflexivity.
Qed.

Lemma find_by_code_Some (code : string) (tbl : Table) (i : nat) (r : UrlMap) :
  find_by_code code tbl = Some (i, r) ->
  tbl !! i = Some r /\ short_code r = Some code.
Proof.
  unfold find_by_code. rewrite list_find_Some. intros (H1 & H2 & _).
  split; assumption.
Qed.

(** Under the unique index a code designates one row at most, so the
    lookup returns the row that carries the code. *)
Lemma find_by_code_unique (code : string) (tbl : Table) (i : nat) (r : UrlMap) :
  unique_codes tbl ->
  tbl !! i = Some r -> short_code r = Some code ->
  find_by_code code tbl = Some (i, r).
Proof.
  unfold unique_codes, find_by_code. revert i.
  induction tbl as [|x tbl IH]; intros i Hu Hi Hc; [discriminate|].
  cbn [list_find]. destruct i as [|i]; cbn in Hi.
  - injection Hi as ->. rewrite decide_True by assumption. reflexivity.
  - assert (Hin : code ∈ omap short_code tbl).
    { apply list_elem_of_omap. exists r. split; [|assumption].
      apply list_elem_of_lookup. exists i. assumption. }
    cbn [omap list_omap] in Hu. fold (omap short_code tbl) in Hu.
    destruct (short_code x) as [cx|] eqn:Hx.
    + apply NoDup_cons in Hu as [Hnot Hu].
      rewrite decide_False by (intros [= ->]; contradiction).
      rewrite (IH i Hu Hi Hc). reflexivity.
    + rewrite decide_False by discriminate.
      rewrite (IH i Hu Hi Hc). reflexivity.
Qed.

(** On the table of the program [is_expired] answers for the rows
    without expiry only. *)
Lemma is_expired_stored (now : datetime) (r : UrlMap) :
  is_expired now r
  = match expires_at r with
    | Some _ => None
    | None => Some false
    end.
Proof. unfold is_expired. destruct (expires_at r); reflexivity. Qed.

(** *** The URL validator *)

Section Validator.
Variable urlparse : string -> option ParseResult.

Lemma truthy_true (s : string) : truthy s = true <-> s <> "".
Proof.
  unfold truthy. destruct (String.eqb_spec s ""); cbn; split; congruence.
Qed.

(** C3, as the code has it. [is_valid_url s] is [true] exactly when
    [urlparse s] returns a result whose scheme is ["http"] or
    ["https"] and whose network location, the whole authority, is not
    empty; the host inside it is not looked at. It is a total
    function to [bool]: a parse that raises gives [false]. *)
Theorem is_valid_url_iff (s : string) :
  (is_valid_url urlparse s = true
   <-> exists parsed,
         urlparse s = Some parsed
         /\ (scheme parsed = "http" \/ scheme parsed = "https")
         /\ netloc parsed <> "")
  /\ (urlparse s = None -> is_valid_url urlparse s = false).
Proof.
  unfold is_valid_url. destruct (urlparse s) as [parsed|].
  - split; [|discriminate].
    destruct (String.eqb_spec (scheme parsed) "http") as [Eh|Eh];
      destruct (String.eqb_spec (scheme parsed) "https") as [Es|Es];
      destruct (String.eqb_spec (netloc parsed) "") as [En|En];
      unfold truthy; cbn;
      try rewrite (proj2 (String.eqb_eq _ _) En);
      try rewrite (proj2 (String.eqb_neq _ _) En); cbn;
      (split;
       [ try discriminate; intros _; exists parsed; tauto
       | intros (q & [= <-] & Hs & Hn); try reflexivity; tauto ]).
  - split; [|reflexivity].
    split; [discriminate | intros (q & [=] & _)].
Qed.

End Validator.

Lemma is_valid_url_iff_witness :
  PyRef.is_valid_url "https://example.com/path" = true
  /\ PyRef.is_valid_url "//[" = false.
Proof.
  split.
  - apply (proj1 (is_valid_url_iff PyRef.urlparse "https://example.com/path")).
    exists (mkParseResult "https" "example.com").
    split; [reflexivity|]. split; [right; reflexivity | discriminate].
  - apply (proj2 (is_valid_url_iff PyRef.urlparse "//[")). reflexivity.
Defined.

(** C3, as stated, fails: the URL [http://:80/] has the authority
    [:80], whose host is empty, and [user@] is an authority without
    host as well; both URLs are valid for [is_valid_url]. *)
Lemma is_valid_url_host_counterexample :
  PyRef.urlparse "http://:80/" = Some (mkParseResult "http" ":80")
  /\ PyRef.hostname ":80" = ""
  /\ PyRef.is_valid_url "http://:80/" = true
  /\ PyRef.urlparse "https://user@/x" = Some (mkParseResult "https" "user@")
  /\ PyRef.hostname "user@" = ""
  /\ PyRef.is_valid_url "https://user@/x" = true.
Proof. repeat split; reflexivity. Qed.

(** *** The unique index is kept by every handler *)

Lemma unique_codes_nil : unique_codes [].
Proof. apply NoDup_nil_2. Qed.

Lemma codes_insert (tbl : Table) (i : nat) (r r' : UrlMap) :
  tbl !! i = Some r -> short_code r' = short_code r ->
  omap short_code (<[i := r']> tbl) = omap short_code tbl.
Proof.
  revert i. induction tbl as [|x tbl IH]; intros [|i] Hi Hc;
    try discriminate; cbn in Hi |- *.
  - injection Hi as ->. rewrite Hc. reflexivity.
  - specialize (IH i Hi Hc).
    destruct (short_code x); [f_equal|]; exact IH.
Qed.

Lemma redirect_code_unique (t_check t_access : datetime) (code : string)
    (tbl : Table) :
  unique_codes tbl ->
  unique_codes (snd (redirect_code t_check t_access code tbl)).
Proof.
  intros Hu. unfold redirect_code.
  destruct (find_by_code code tbl) as [[i r]|] eqn:Hf; [|exact Hu].
  destruct (is_expired t_check r) as [[|]|]; [exact Hu| |exact Hu].
  destruct (SQLITE_INTEGER_MAX <? hits_or_0 r + 1); [exact Hu|]. cbn [snd].
  unfold unique_codes.
  rewrite (codes_insert tbl i r); [exact Hu | | reflexivity].
  apply (find_by_code_Some _ _ _ _ Hf).
Qed.

Lemma codes_snoc_fresh (tbl : Table) (row : UrlMap) :
  unique_codes tbl ->
  (forall c, short_code row = Some c -> find_by_code c tbl = None) ->
  unique_codes (tbl ++ [row]).
Proof.
  unfold unique_codes. intros Hu Hfresh. rewrite omap_app.
  cbn [omap list_omap]. destruct (short_code row) as [c|].
  - apply NoDup_app. split; [exact Hu|]. split; [|apply NoDup_singleton].
    intros c' Hin Hc'. apply list_elem_of_singleton in Hc' as ->.
    apply list_elem_of_omap in Hin as (r & Hr & Hc).
    exact (proj1 (find_by_code_None c tbl) (Hfresh c eq_refl) r Hr Hc).
  - rewrite app_nil_r. exact Hu.
Qed.

Section Invariant.
Variable urlparse : string -> option ParseResult.
Variable py_int : string -> option Z.

Lemma shorten_unique (t_expiry t_insert : datetime) (form : ShortenForm)
    (tbl : Table) :
  unique_codes tbl ->
  unique_codes (snd (shorten urlparse py_int t_expiry t_insert form tbl)).
Proof.
  intros Hu. unfold shorten.
  destruct (normalize_long_url _ _) as [?|u]; [exact Hu|].
  destruct (is_valid_url _ u); cbn [negb]; [|exact Hu].
  destruct (compute_expires_at _ _ _) as [?|e]; [exact Hu|].
  destruct (validate_custom_code _ tbl) as [?|[]] eqn:Hv; [exact Hu|].
  assert (Hcreate :
    unique_codes (snd (create_row t_insert (custom_code_of form) u e tbl))).
  { unfold create_row.
    destruct (match custom_code_of form with
              | Some c => Some c
              | None => _
              end) as [c|].
    - destruct (find_by_code c tbl) eqn:Hf; cbn [snd];
        apply codes_snoc_fresh; try exact Hu; cbn; congruence.
    - cbn [snd]. apply codes_snoc_fresh; [exact Hu | discriminate]. }
  destruct (find_by_long_url u tbl) as [[i ex]|] eqn:Hf; [|exact Hcreate].
  destruct (custom_code_of form); [exact Hcreate|].
  unfold reuse_existing. apply list_find_Some in Hf as (Hi & _).
  assert (Hk : unique_codes (match e with
                             | Some _ => <[i := set_expires_at e ex]> tbl
                             | None => tbl
                             end)).
  { destruct e; [|exact Hu]. unfold unique_codes.
    rewrite (codes_insert tbl i ex); [exact Hu | exact Hi | reflexivity]. }
  destruct e; cbn [short_code set_expires_at] in *;
    destruct (short_code ex); exact Hk.
Qed.

End Invariant.

(** *** Redirects and reads *)

Lemma sample_table_unique : unique_codes sample_table.
Proof.
  unfold unique_codes, sample_table. cbn.
  repeat (apply NoDup_cons_2; [rewrite ?elem_of_cons, elem_of_nil; intuition discriminate|]).
  apply NoDup_nil_2.
Qed.

(** C4. What [GET /<code>] does on the table of the program. It
    answers [NotFound] exactly when no row carries the code. When the
    row that carries the code has no expiry, it answers with a
    redirect to the row's [long_url] and rewrites that one row, with
    [hits] one higher (1 for a null count) and [last_accessed] set to
    the clock, as long as the new count fits the column. When the row
    has an expiry, past or future, the comparison in [is_expired]
    raises [TypeError] and nothing is written: an expired link is not
    answered [NotFound], a link yet to expire is not redirected. *)
Theorem redirect_code_spec (t_check t_access : datetime) (code : string)
    (tbl : Table) :
  unique_codes tbl ->
  (fst (redirect_code t_check t_access code tbl) = NotFound
   <-> forall r, r ∈ tbl -> short_code r <> Some code)
  /\ (forall i r,
        tbl !! i = Some r -> short_code r = Some code ->
        expires_at r = None ->
        match hits r with
        | Some h => h + 1
        | None => 1
        end <= SQLITE_INTEGER_MAX ->
        redirect_code t_check t_access code tbl
        = (RedirectTo (long_url r),
           <[i := mkUrlMap (id r) (long_url r) (short_code r) (created_at r)
                    (Some match hits r with
                          | Some h => h + 1
                          | None => 1
                          end)
                    (Some t_access) None]> tbl))
  /\ (forall i r e,
        tbl !! i = Some r -> short_code r = Some code ->
        expires_at r = Some e ->
        redirect_code t_check t_access code tbl
        = (ServerError TypeError, tbl)).
Proof.
  intros Hu. split; [|split].
  - unfold redirect_code.
    destruct (find_by_code code tbl) as [[i r]|] eqn:Hf.
    + destruct (find_by_code_Some _ _ _ _ Hf) as [Hi Hc].
      assert (Hin : r ∈ tbl) by (apply list_elem_of_lookup; eauto).
      rewrite is_expired_stored.
      destruct (expires_at r);
        [|destruct (SQLITE_INTEGER_MAX <? hits_or_0 r + 1)]; cbn [fst];
        (split; [discriminate | intros Hno; exfalso; exact (Hno r Hin Hc)]).
    + cbn [fst]. split; [intros _|reflexivity].
      apply find_by_code_None. exact Hf.
  - intros i r Hi Hc He Hh. unfold redirect_code.
    rewrite (find_by_code_unique _ _ _ _ Hu Hi Hc), is_expired_stored, He.
    unfold hits_or_0, set_last_accessed, set_hits.
    destruct r as [rid rurl rcode rcreated rhits raccessed rexpires].
    cbn in He, Hh |- *. subst rexpires.
    destruct rhits as [h|];
      (destruct (Z.ltb_spec SQLITE_INTEGER_MAX (h + 1))
       || destruct (Z.ltb_spec SQLITE_INTEGER_MAX (0 + 1)));
      first [lia | reflexivity].
  - intros i r e Hi Hc He. unfold redirect_code.
    rewrite (find_by_code_unique _ _ _ _ Hu Hi Hc), is_expired_stored, He.
    reflexivity.
Qed.

Lemma redirect_code_spec_witness :
  redirect_code 1000 1001 "2" sample_table
  = (ServerError TypeError, sample_table).
Proof.
  apply (proj2 (proj2 (redirect_code_spec 1000 1001 "2" sample_table
                         sample_table_unique)) 1%nat row_expired 500);
    reflexivity.
Defined.

(** C5. A stored link with an expiry, on the table of the program:
    [GET /<code>] and the expand API both fail with the [TypeError]
    that the comparison in [is_expired] raises, whether the expiry is
    past or not, and write nothing; the stats page returns the row.
    The specification asks for [NotFound] on the redirect of an
    expired link and for [expired] reported [true] by the API. *)
Theorem expired_link_soft (t_check t_access t_read : datetime) (code : string)
    (tbl : Table) (i : nat) (r : UrlMap) (e : datetime) :
  unique_codes tbl ->
  tbl !! i = Some r -> short_code r = Some code ->
  expires_at r = Some e ->
  redirect_code t_check t_access code tbl = (ServerError TypeError, tbl)
  /\ stats code tbl = (StatsPage r, tbl)
  /\ api_expand t_read code tbl = (ServerError TypeError, tbl).
Proof.
  intros Hu Hi Hc He.
  pose proof (find_by_code_unique _ _ _ _ Hu Hi Hc) as Hf.
  unfold redirect_code, stats, api_expand.
  rewrite Hf, !is_expired_stored, He.
  repeat split; reflexivity.
Qed.

Lemma expired_link_soft_witness :
  redirect_code 1000 1001 "2" sample_table
  = (ServerError TypeError, sample_table)
  /\ stats "2" sample_table = (StatsPage row_expired, sample_table)
  /\ api_expand 2000 "2" sample_table
     = (ServerError TypeError, sample_table).
Proof.
  apply (expired_link_soft 1000 1001 2000 "2" sample_table 1%nat row_expired
           500 sample_table_unique); reflexivity.
Defined.

(** C9. The stats page and the expand API write nothing: whatever the
    code and the table, the table after the request is the table
    before it. Each answers not-found when no row carries the code.
    For the row found, the stats page returns the row itself; the API
    returns every field of it, with [expired] false, when the row has
    no expiry, and fails with the [TypeError] of [is_expired] when it
    has one, where the specification has a view with [expired]
    computed. *)
Theorem reads_are_pure (now : datetime) (code : string) (tbl : Table) :
  snd (stats code tbl) = tbl
  /\ snd (api_expand now code tbl) = tbl
  /\ ((find_by_code code tbl = None
       /\ fst (stats code tbl) = NotFound
       /\ fst (api_expand now code tbl) = ExpandNotFound)
      \/ (exists i item,
            find_by_code code tbl = Some (i, item)
            /\ fst (stats code tbl) = StatsPage item
            /\ match expires_at item with
               | None =>
                   fst (api_expand now code tbl)
                   = ExpandJson
                       (mkExpandView (short_code item) (long_url item)
                          (hits item) (created_at item) (last_accessed item)
                          None false)
               | Some _ =>
                   fst (api_expand now code tbl) = ServerError TypeError
               end)).
Proof.
  unfold stats, api_expand.
  destruct (find_by_code code tbl) as [[i item]|].
  - rewrite is_expired_stored.
    destruct (expires_at item) as [e|] eqn:He;
      (split; [reflexivity|]); (split; [reflexivity|]); right;
      exists i, item; (split; [reflexivity|]); (split; [reflexivity|]);
      rewrite He; reflexivity.
  - split; [reflexivity|]. split; [reflexivity|]. left.
    repeat split; reflexivity.
Qed.

(** *** Shortening *)

Section Shorten.
Variable urlparse : string -> option ParseResult.
Variable py_int : string -> option Z.

Local Abbreviation shorten := (App.shorten urlparse py_int).
Local Abbreviation normalize_long_url := (App.normalize_long_url urlparse).
Local Abbreviation is_valid_url := (App.is_valid_url urlparse).
Local Abbreviation compute_expires_at := (App.compute_expires_at py_int).
Local Abbreviation passes_url_and_expiry :=
  (App.passes_url_and_expiry urlparse py_int).

Lemma shorten_passed (t_expiry t_insert : datetime) (form : ShortenForm)
    (tbl : Table) (u : string) (e : option datetime) :
  passes_url_and_expiry t_expiry form u e ->
  shorten t_expiry t_insert form tbl
  = match validate_custom_code (custom_code_of form) tbl with
    | inl r => (r, tbl)
    | inr _ =>
        match find_by_long_url u tbl, custom_code_of form with
        | Some (i, existing), None => reuse_existing i existing u e tbl
        | _, _ => create_row t_insert (custom_code_of form) u e tbl
        end
    end.
Proof.
  intros (Hn & Hv & He). unfold App.shorten.
  rewrite Hn, Hv, He. reflexivity.
Qed.

(** Every early return of [shorten] leaves the table as it is. *)
Lemma shorten_rejected (t_expiry t_insert : datetime) (form : ShortenForm)
    (tbl : Table) :
  (exists r, validate_custom_code (custom_code_of form) tbl = inl r) ->
  snd (shorten t_expiry t_insert form tbl) = tbl
  /\ forall c u e, fst (shorten t_expiry t_insert form tbl) <> Success c u e.
Proof.
  intros [r Hr]. unfold App.shorten.
  assert (Hk : forall c u e, r <> Success c u e).
  { unfold validate_custom_code in Hr.
    destruct (custom_code_of form) as [c|]; [|discriminate].
    destruct (fullmatch_custom_code c); cbn in Hr;
      [destruct (find_by_code c tbl)|]; inversion Hr; discriminate. }
  destruct (normalize_long_url _) as [r0|u] eqn:Hn.
  { split; [reflexivity|]. cbn. unfold App.normalize_long_url in Hn.
    destruct (truthy _); [|discriminate].
    destruct (urlparse _) as [q|]; [destruct (truthy (scheme q))|];
      cbn in Hn; inversion Hn; discriminate. }
  destruct (is_valid_url u); cbn [negb]; [|split; [reflexivity|discriminate]].
  destruct (compute_expires_at _ _) as [r1|e] eqn:He.
  { split; [reflexivity|]. cbn. unfold App.compute_expires_at in He.
    destruct (truthy _); [|discriminate].
    destruct (py_int _) as [d|]; [|inversion He; discriminate].
    destruct (d <=? 0); [inversion He; discriminate|].
    destruct (add_days _ _); inversion He; discriminate. }
  rewrite Hr. split; [reflexivity | apply Hk].
Qed.

(** C7, as the code has it. A request whose custom code is the code
    of an existing row never succeeds and leaves the table as it is.
    Its answer is [code_taken] when the URL and the expiry pass their
    checks and the code matches the pattern of custom codes; the
    checks of the URL, of the expiry and of the pattern come first. *)
Theorem shorten_taken_code (t_expiry t_insert : datetime) (form : ShortenForm)
    (tbl : Table) (c : string) (r : UrlMap) :
  strip (form_custom_code form) = c -> c <> "" ->
  r ∈ tbl -> short_code r = Some c ->
  snd (shorten t_expiry t_insert form tbl) = tbl
  /\ (forall c' u e, fst (shorten t_expiry t_insert form tbl) <> Success c' u e)
  /\ (forall u e,
        passes_url_and_expiry t_expiry form u e ->
        fullmatch_custom_code c = true ->
        fst (shorten t_expiry t_insert form tbl) = Flash code_taken).
Proof.
  intros Hc Hne Hin Hr.
  assert (Hcc : custom_code_of form = Some c).
  { unfold custom_code_of. rewrite Hc, (proj2 (truthy_true c) Hne). reflexivity. }
  assert (Hf : exists ir, find_by_code c tbl = Some ir).
  { destruct (find_by_code c tbl) as [ir|] eqn:Hf; [eauto|].
    exfalso. exact (proj1 (find_by_code_None c tbl) Hf r Hin Hr). }
  destruct Hf as [ir Hf].
  assert (Hv : exists x, validate_custom_code (custom_code_of form) tbl = inl x).
  { rewrite Hcc. unfold validate_custom_code.
    destruct (fullmatch_custom_code c); cbn; [rewrite Hf|]; eauto. }
  destruct (shorten_rejected t_expiry t_insert form tbl Hv) as [H1 H2].
  split; [exact H1|]. split; [exact H2|].
  intros u e Hp Hm. rewrite (shorten_passed _ _ _ _ _ _ Hp), Hcc.
  unfold validate_custom_code. rewrite Hm, Hf. reflexivity.
Qed.

Lemma add_days_in_range (now : datetime) (days : Z) :
  0 < days -> days <= TIMEDELTA_MAX_DAYS ->
  0 <= now -> now + days * US_PER_DAY <= DATETIME_MAX ->
  add_days now days = Some (now + days * US_PER_DAY).
Proof.
  intros H1 H2 H3 H4. unfold add_days.
  assert (E1 : (days <? - TIMEDELTA_MAX_DAYS) = false).
  { apply Z.ltb_ge. unfold TIMEDELTA_MAX_DAYS in *. lia. }
  assert (E2 : (TIMEDELTA_MAX_DAYS <? days) = false)
    by (apply Z.ltb_ge; lia).
  assert (E3 : (now + days * US_PER_DAY <? 0) = false).
  { apply Z.ltb_ge. unfold US_PER_DAY. lia. }
  assert (E4 : (DATETIME_MAX <? now + days * US_PER_DAY) = false)
    by (apply Z.ltb_ge; lia).
  rewrite E1, E2, E3, E4. reflexivity.
Qed.

(** C8, as the code has it. For a request whose URL passes its check
    and whose expiry field, stripped, is not empty: when the field
    does not parse as a positive integer the answer is
    [invalid_expiry] and the table is as before; when it parses as
    [d > 0], with [now + d] days within the range of [datetime] and
    the custom code accepted, the row reused or created by the
    request has [expires_at = now + d] days, which a successful
    answer reports. *)
Theorem shorten_expiry (t_expiry t_insert : datetime) (form : ShortenForm)
    (tbl : Table) (u s : string) :
  normalize_long_url (strip (form_long_url form)) = inr u ->
  is_valid_url u = true ->
  strip (form_expires_in form) = s -> s <> "" ->
  ((py_int s = None \/ (exists d, py_int s = Some d /\ d <= 0)) ->
   shorten t_expiry t_insert form tbl = (Flash invalid_expiry, tbl))
  /\ (forall d,
        py_int s = Some d -> 0 < d -> d <= TIMEDELTA_MAX_DAYS ->
        0 <= t_expiry -> t_expiry + d * US_PER_DAY <= DATETIME_MAX ->
        validate_custom_code (custom_code_of form) tbl = inr tt ->
        exists i r,
          snd (shorten t_expiry t_insert form tbl) !! i = Some r
          /\ long_url r = u
          /\ expires_at r = Some (t_expiry + d * US_PER_DAY)
          /\ (forall c u' e',
                fst (shorten t_expiry t_insert form tbl) = Success c u' e' ->
                short_code r = Some c /\ u' = u
                /\ e' = Some (t_expiry + d * US_PER_DAY))).
Proof.
  intros Hn Hv Hs Hne. apply truthy_true in Hne. split.
  - intros Hbad. unfold App.shorten. rewrite Hn, Hv, Hs. cbn [negb].
    unfold App.compute_expires_at. rewrite Hne.
    destruct Hbad as [->|(d & -> & Hd)]; [reflexivity|].
    destruct (Z.leb_spec d 0); [reflexivity | lia].
  - intros d Hd H0 H1 H2 H3 Hc.
    assert (He : compute_expires_at t_expiry s
                 = inr (Some (t_expiry + d * US_PER_DAY))).
    { unfold App.compute_expires_at. rewrite Hne, Hd.
      destruct (Z.leb_spec d 0); [lia|].
      rewrite add_days_in_range by assumption. reflexivity. }
    rewrite <- Hs in He.
    rewrite (shorten_passed _ _ _ _ u _ (conj Hn (conj Hv He))), Hc.
    set (e := Some (t_expiry + d * US_PER_DAY)).
    assert (Hcreate :
      exists i r,
        snd (create_row t_insert (custom_code_of form) u e tbl) !! i = Some r
        /\ long_url r = u /\ expires_at r = e
        /\ (forall c u' e',
              fst (create_row t_insert (custom_code_of form) u e tbl)
              = Success c u' e' ->
              short_code r = Some c /\ u' = u /\ e' = e)).
    { unfold create_row.
      destruct (match custom_code_of form with
                | Some c => Some c
                | None => _
                end) as [c|].
      - destruct (find_by_code c tbl); cbn [fst snd];
          eexists (length tbl), _;
          (split; [apply list_lookup_middle; reflexivity|]);
          (split; [reflexivity|]); (split; [reflexivity|]);
          intros c' u' e'; [discriminate|].
        intros [= <- <- <-]. auto.
      - cbn [fst snd]. eexists (length tbl), _.
        split; [apply list_lookup_middle; reflexivity|].
        split; [reflexivity|]. split; [reflexivity|]. discriminate. }
    destruct (find_by_long_url u tbl) as [[i ex]|] eqn:Hf; [|exact Hcreate].
    destruct (custom_code_of form); [exact Hcreate|].
    unfold find_by_long_url in Hf.
    apply list_find_Some in Hf as (Hi & Hu & _).
    unfold reuse_existing. subst e.
    cbn [short_code set_expires_at expires_at].
    set (e := Some (t_expiry + d * US_PER_DAY)).
    exists i, (set_expires_at e ex).
    assert (Hl : <[i := set_expires_at e ex]> tbl !! i
                 = Some (set_expires_at e ex)).
    { apply list_lookup_insert_eq. eapply lookup_lt_Some. exact Hi. }
    destruct (short_code ex) as [c|] eqn:Hx; cbn [fst snd];
      (split; [exact Hl|]); (split; [exact Hu|]); (split; [reflexivity|]).
    + intros c' u' e' [= <- <- <-]. cbn. auto.
    + discriminate.
Qed.

(** What a successful answer to a request without custom code tells:
    the checks passed, and the code comes from the row reused or from
    the row created. *)
Lemma shorten_Success_inv (t_expiry t_insert : datetime) (form : ShortenForm)
    (tbl tbl1 : Table) (c u : string) (e : option datetime) :
  custom_code_of form = None ->
  shorten t_expiry t_insert form tbl = (Success c u e, tbl1) ->
  exists e0,
    passes_url_and_expiry t_expiry form u e0
    /\ match find_by_long_url u tbl with
       | Some (i, ex) => reuse_existing i ex u e0 tbl = (Success c u e, tbl1)
       | None => create_row t_insert None u e0 tbl = (Success c u e, tbl1)
       end.
Proof.
  intros Hcc H. unfold App.shorten in H. rewrite Hcc in H.
  destruct (normalize_long_url _) as [r0|u0] eqn:Hn.
  { exfalso. unfold App.normalize_long_url in Hn.
    destruct (truthy _); [|discriminate].
    destruct (urlparse _) as [q|]; [destruct (truthy (scheme q))|];
      cbn in Hn; congruence. }
  destruct (is_valid_url u0) eqn:Hv; cbn [negb] in H; [|discriminate].
  destruct (compute_expires_at _ _) as [r1|e0] eqn:He.
  { exfalso. unfold App.compute_expires_at in He.
    destruct (truthy _); [|discriminate].
    destruct (py_int _) as [d|]; [|congruence].
    destruct (d <=? 0); [congruence|].
    destruct (add_days _ _); congruence. }
  cbn [validate_custom_code] in H.
  assert (Hu : u0 = u).
  { destruct (find_by_long_url u0 tbl) as [[i ex]|].
    - unfold reuse_existing in H.
      destruct (short_code _); [|discriminate]. congruence.
    - unfold create_row in H.
      destruct (Base62.encode_base62 _) as [c0|]; [|discriminate].
      destruct (find_by_code c0 tbl); [discriminate|]. congruence. }
  subst u0. exists e0. split; [repeat split; assumption|].
  destruct (find_by_long_url u tbl) as [[i ex]|]; exact H.
Qed.

(** The row that a successful request without custom code leaves
    first among those with its URL, and that row's code. *)
Lemma shorten_Success_row (t_expiry t_insert : datetime) (form : ShortenForm)
    (tbl tbl1 : Table) (c u : string) (e : option datetime) :
  custom_code_of form = None ->
  shorten t_expiry t_insert form tbl = (Success c u e, tbl1) ->
  exists i r,
    find_by_long_url u tbl1 = Some (i, r) /\ short_code r = Some c.
Proof.
  intros Hcc H.
  destruct (shorten_Success_inv _ _ _ _ _ _ _ _ Hcc H) as (e0 & _ & Hb).
  destruct (find_by_long_url u tbl) as [[i ex]|] eqn:Hf.
  - unfold reuse_existing in Hb. destruct e0 as [t|].
    + cbn [short_code set_expires_at] in Hb.
      destruct (short_code ex) as [c0|] eqn:Hx; [|discriminate].
      injection Hb as <- _ <-.
      exists i, (set_expires_at (Some t) ex). split; [|exact Hx].
      unfold find_by_long_url in *.
      apply list_find_Some in Hf as (Hi & Hu & Hmin).
      apply list_find_insert_Some. right. left.
      split; [reflexivity|]. split; [reflexivity|].
      split; [eapply lookup_lt_Some; exact Hi|].
      split; [exact Hu | exact Hmin].
    + destruct (short_code ex) as [c0|] eqn:Hx; [|discriminate].
      injection Hb as <- _ <-. exists i, ex. split; [exact Hf | exact Hx].
  - unfold create_row in Hb.
    destruct (Base62.encode_base62 _) as [c0|]; [|discriminate].
    destruct (find_by_code c0 tbl); [discriminate|].
    injection Hb as <- _ <-.
    eexists (0 + length tbl)%nat, _. split.
    { unfold find_by_long_url in *.
      rewrite list_find_app_r by exact Hf.
      cbn [list_find long_url set_short_code].
      rewrite decide_True by reflexivity. reflexivity. }
    reflexivity.
Qed.

(** C6. When a request without custom code has been answered with the
    code [c], a second request for the same URL, again without custom
    code and with an expiry that is absent or accepted, is answered
    with the same code [c]. It inserts no row: the table keeps its
    length, and differs from the table before at most in the
    [expires_at] of the reused row, written when the second request
    carries an expiry. *)
Theorem shorten_twice_same_code (t1 t1' t2 t2' : datetime)
    (form1 form2 : ShortenForm) (tbl tbl1 : Table) (c u : string)
    (e1 e2 : option datetime) :
  custom_code_of form1 = None -> custom_code_of form2 = None ->
  form_long_url form2 = form_long_url form1 ->
  shorten t1 t1' form1 tbl = (Success c u e1, tbl1) ->
  compute_expires_at t2 (strip (form_expires_in form2)) = inr e2 ->
  exists i r,
    find_by_long_url u tbl1 = Some (i, r)
    /\ short_code r = Some c
    /\ shorten t2 t2' form2 tbl1
       = (Success c u (match e2 with
                       | Some _ => e2
                       | None => expires_at r
                       end),
          match e2 with
          | Some _ => <[i := set_expires_at e2 r]> tbl1
          | None => tbl1
          end)
    /\ length (snd (shorten t2 t2' form2 tbl1)) = length tbl1.
Proof.
  intros Hc1 Hc2 Hurl H1 He2.
  destruct (shorten_Success_inv _ _ _ _ _ _ _ _ Hc1 H1)
    as (e0 & (Hn & Hv & _) & _).
  destruct (shorten_Success_row _ _ _ _ _ _ _ _ Hc1 H1) as (i & r & Hf & Hx).
  exists i, r. split; [exact Hf|]. split; [exact Hx|].
  assert (Hp : passes_url_and_expiry t2 form2 u e2).
  { split; [rewrite Hurl; exact Hn|]. split; [exact Hv | exact He2]. }
  rewrite (shorten_passed _ _ _ _ _ _ Hp), Hc2.
  cbn [validate_custom_code]. rewrite Hf. unfold reuse_existing.
  destruct e2 as [t|]; cbn [short_code set_expires_at expires_at];
    rewrite Hx; cbn [snd]; (split; [reflexivity|]).
  - apply length_insert.
  - reflexivity.
Qed.

End Shorten.

(** C7, as stated, fails: the first link ever made has the code ["1"],
    and a request for the custom code ["1"] is answered
    [invalid_custom_code], not [code_taken]. *)
Lemma shorten_taken_code_counterexample :
  row_live ∈ sample_table
  /\ short_code row_live = Some "1"
  /\ PyRef.shorten 1000 1000
       (mkShortenForm "https://example.com/other" "1" "") sample_table
     = (Flash invalid_custom_code, sample_table)
  /\ fst (PyRef.shorten 1000 1000
            (mkShortenForm "https://example.com/other" "1" "") sample_table)
     <> Flash code_taken.
Proof.
  split; [apply list_elem_of_here|]. split; [reflexivity|].
  split; [reflexivity | discriminate].
Qed.

Lemma shorten_taken_code_witness :
  snd (PyRef.shorten 1000 1000
         (mkShortenForm "https://example.com/other" "my_code" "") sample_table)
  = sample_table
  /\ fst (PyRef.shorten 1000 1000
            (mkShortenForm "https://example.com/other" "my_code" "")
            sample_table)
     = Flash code_taken.
Proof.
  destruct (shorten_taken_code PyRef.urlparse PyRef.py_int 1000 1000
              (mkShortenForm "https://example.com/other" "my_code" "")
              sample_table "my_code" row_custom)
    as (H1 & _ & H3).
  - reflexivity.
  - discriminate.
  - unfold sample_table. rewrite !elem_of_cons. tauto.
  - reflexivity.
  - split; [exact H1|].
    apply (H3 "https://example.com/other" None).
    + repeat split; reflexivity.
    + reflexivity.
Defined.

(** C8, as stated, fails: with a URL that is not valid, the expiry
    ["-1"] is answered [invalid_url]. *)
Lemma shorten_expiry_counterexample :
  PyRef.py_int "-1" = Some (-1)
  /\ PyRef.shorten 1000 1000
       (mkShortenForm "ftp://example.com/file" "" "-1") sample_table
     = (Flash invalid_url, sample_table)
  /\ fst (PyRef.shorten 1000 1000
            (mkShortenForm "ftp://example.com/file" "" "-1") sample_table)
     <> Flash invalid_expiry.
Proof.
  split; [reflexivity|]. split; [reflexivity | discriminate].
Qed.

Lemma shorten_expiry_witness :
  PyRef.shorten t_2026 t_2026
    (mkShortenForm "https://example.com/new" "" "-1") sample_table
  = (Flash invalid_expiry, sample_table)
  /\ exists i r,
       snd (PyRef.shorten t_2026 t_2026
              (mkShortenForm "https://example.com/new" "" "7") sample_table)
         !! i = Some r
       /\ long_url r = "https://example.com/new"
       /\ expires_at r = Some (t_2026 + 7 * US_PER_DAY)
       /\ (forall c u' e',
             fst (PyRef.shorten t_2026 t_2026
                    (mkShortenForm "https://example.com/new" "" "7")
                    sample_table) = Success c u' e' ->
             short_code r = Some c /\ u' = "https://example.com/new"
             /\ e' = Some (t_2026 + 7 * US_PER_DAY)).
Proof.
  split.
  - apply (proj1 (shorten_expiry PyRef.urlparse PyRef.py_int t_2026 t_2026
                    (mkShortenForm "https://example.com/new" "" "-1")
                    sample_table "https://example.com/new" "-1"
                    eq_refl eq_refl eq_refl ltac:(discriminate))).
    right. exists (-1). split; [reflexivity | lia].
  - apply (proj2 (shorten_expiry PyRef.urlparse PyRef.py_int t_2026 t_2026
                    (mkShortenForm "https://example.com/new" "" "7")
                    sample_table "https://example.com/new" "7"
                    eq_refl eq_refl eq_refl ltac:(discriminate)) 7);
      try reflexivity; vm_compute; congruence.
Defined.

Lemma shorten_twice_same_code_witness :
  exists i r,
    find_by_long_url "https://example.com/new"
      (sample_table ++ [row_new]) = Some (i, r)
    /\ short_code r = Some "4"
    /\ PyRef.shorten t_2026 t_2026
         (mkShortenForm "example.com/new" "" "7") (sample_table ++ [row_new])
       = (Success "4" "https://example.com/new"
            (Some (t_2026 + 7 * US_PER_DAY)),
          <[i := set_expires_at (Some (t_2026 + 7 * US_PER_DAY)) r]>
            (sample_table ++ [row_new]))
    /\ length (snd (PyRef.shorten t_2026 t_2026
                      (mkShortenForm "example.com/new" "" "7")
                      (sample_table ++ [row_new])))
       = length (sample_table ++ [row_new]).
Proof.
  apply (shorten_twice_same_code PyRef.urlparse PyRef.py_int
           t_2026 t_2026 t_2026 t_2026
           (mkShortenForm "example.com/new" "" "")
           (mkShortenForm "example.com/new" "" "7")
           sample_table (sample_table ++ [row_new])
           "4" "https://example.com/new" None
           (Some (t_2026 + 7 * US_PER_DAY)));
    reflexivity.
Defined.

End AppFacts.

(** ** Further properties of the encoder *)

Module Base62More.
Import Base62 Base62Facts.

Lemma lsd_value_bound (ds : list Z) :
  Forall is_digit ds -> 0 <= lsd_value ds < base ^ Z.of_nat (length ds).
Proof.
  induction 1 as [|d ds [Hd1 Hd2] _ IH]; [cbn; lia|].
  cbn [lsd_value fold_right length]. fold (lsd_value ds).
  rewrite Nat2Z.inj_succ, Z.pow_succ_r by lia.
  change base with 62 in *. lia.
Qed.

Lemma string_length_of_list (cs : list ascii) :
  String.length (string_of_list_ascii cs) = length cs.
Proof. induction cs as [|c cs IH]; cbn; [reflexivity | rewrite IH; reflexivity]. Qed.

Lemma index_of_In (c : ascii) (s : string) (i : Z) :
  index_of c s = Some i -> In c (list_ascii_of_string s).
Proof.
  revert i. induction s as [|c' s IH]; intros i H; cbn in H; [discriminate|].
  cbn [list_ascii_of_string]. destruct (Ascii.eqb_spec c c') as [->|_].
  - left. reflexivity.
  - right. destruct (index_of c s) as [j|]; [|discriminate]. eapply IH. reflexivity.
Qed.

Lemma spells_In (ds : list Z) (cs : list ascii) :
  Forall2 spells ds cs ->
  Forall (fun c => In c (list_ascii_of_string ALPHABET)) cs.
Proof.
  induction 1 as [|d c ds cs [_ Hc] _ IH]; constructor; [|exact IH].
  eapply index_of_In. exact Hc.
Qed.

(** The shape of the result for a positive argument: its length is
    the number of base-62 digits of [n], its characters come from
    [ALPHABET], and it decodes to [n]. *)
Lemma encode_base62_shape (n : Z) :
  n > 0 ->
  exists s k,
    encode_base62 n = Some s
    /\ String.length s = S k
    /\ base ^ Z.of_nat k <= n < base ^ Z.of_nat (S k)
    /\ Forall (fun c => In c (list_ascii_of_string ALPHABET))
              (list_ascii_of_string s)
    /\ decode_base62 s = Some n.
Proof.
  intros Hn.
  destruct (encode_base62_digits n Hn)
    as (d & ds & c & cs & He & Hsp & Hdg & Hd0 & Hv).
  exists (string_of_list_ascii (c :: cs)), (length ds).
  split; [exact He|]. split.
  { rewrite string_length_of_list. symmetry. apply (Forall2_length _ _ _ Hsp). }
  split.
  { assert (Hr : n = lsd_value (rev ds ++ [d])).
    { rewrite <- Hv. change (d :: ds) with ([d] ++ ds).
      rewrite <- (rev_involutive ([d] ++ ds)) at 1.
      rewrite digits_value_rev, rev_app_distr. reflexivity. }
    rewrite lsd_value_snoc, length_rev in Hr.
    inversion Hdg as [|? ? [Hd1 Hd2] Hds]; subst x l.
    pose proof (lsd_value_bound (rev ds) (Forall_rev Hds)) as Hb.
    rewrite length_rev in Hb.
    rewrite Nat2Z.inj_succ, Z.pow_succ_r by lia.
    assert (0 < base ^ Z.of_nat (length ds)) by (apply Z.pow_pos_nonneg; [reflexivity | lia]).
    change base with 62 in *. nia. }
  split.
  { rewrite list_ascii_of_string_of_list_ascii. eapply spells_In. exact Hsp. }
  unfold decode_base62. rewrite (decode_from_spells _ _ 0 Hsp). f_equal. exact Hv.
Qed.

Lemma encode_base62_decodes (k : Z) :
  0 <= k -> exists s, encode_base62 k = Some s /\ decode_base62 s = Some k.
Proof.
  intros Hk. destruct (Z.eq_dec k 0) as [->|Hne].
  - exists "0". split; reflexivity.
  - destruct (encode_base62_shape k ltac:(lia)) as (s & ? & He & _ & _ & _ & Hd).
    exists s. split; assumption.
Qed.

Lemma encode_base62_inj (n m : Z) :
  0 <= n -> 0 <= m -> encode_base62 n = encode_base62 m -> n = m.
Proof.
  intros Hn Hm E.
  destruct (encode_base62_decodes n Hn) as (s & Hs & Ds).
  destruct (encode_base62_decodes m Hm) as (t & Ht & Dt).
  rewrite Hs, Ht in E. injection E as ->. congruence.
Qed.

(** X1. On the non-negative integers [encode_base62] is injective:
    two different ids never get the same code. *)
Theorem encode_base62_injective (n m : Z) :
  0 <= n -> 0 <= m -> n <> m -> encode_base62 n <> encode_base62 m.
Proof.
  intros Hn Hm Hne E. apply Hne. apply encode_base62_inj; assumption.
Qed.

Lemma encode_base62_injective_witness :
  encode_base62 61 <> encode_base62 3843.
Proof. apply (encode_base62_injective 61 3843); lia. Defined.

(** X2. Whatever the argument, every character of the result is one
    of the 62 characters of [ALPHABET]. *)
Theorem encode_base62_alphabet (n : Z) (s : string) :
  encode_base62 n = Some s ->
  Forall (fun c => In c (list_ascii_of_string ALPHABET))
         (list_ascii_of_string s).
Proof.
  intros He. destruct (Z.lt_trichotomy n 0) as [Hneg|[->|Hpos]].
  - unfold encode_base62 in He.
    destruct (Z.eqb_spec n 0) as [|_]; [lia|].
    revert He. simp encode_loop.
    destruct (Z_gt_dec n 0) as [Hp|Hle]; [lia|]. cbn.
    intros [= <-]. constructor.
  - injection He as <-. repeat constructor.
  - destruct (encode_base62_shape n ltac:(lia)) as (s' & ? & He' & _ & _ & Ha & _).
    rewrite He in He'. injection He' as ->. exact Ha.
Qed.

Lemma encode_base62_alphabet_witness :
  Forall (fun c => In c (list_ascii_of_string ALPHABET))
         (list_ascii_of_string "15FTGn").
Proof.
  apply (encode_base62_alphabet 1000000007 "15FTGn"). vm_compute. reflexivity.
Defined.

(** X3. The length of the code is the number of base-62 digits: for
    [62^k <= n < 62^(k+1)] the result has [k + 1] characters. *)
Theorem encode_base62_length (n : Z) (k : nat) :
  base ^ Z.of_nat k <= n < base ^ Z.of_nat (S k) ->
  exists s, encode_base62 n = Some s /\ String.length s = S k.
Proof.
  intros [Hlo Hhi].
  assert (Hn : n > 0).
  { assert (0 < base ^ Z.of_nat k) by (apply Z.pow_pos_nonneg; [reflexivity | lia]). lia. }
  destruct (encode_base62_shape n Hn) as (s & j & He & Hl & [Hjlo Hjhi] & _).
  exists s. split; [exact He|]. rewrite Hl. f_equal.
  assert (Hkj : Z.of_nat j < Z.of_nat (S k)).
  { apply (Z.pow_lt_mono_r_iff base); [reflexivity | lia | lia]. }
  assert (Hjk : Z.of_nat k < Z.of_nat (S j)).
  { apply (Z.pow_lt_mono_r_iff base); [reflexivity | lia | lia]. }
  lia.
Qed.

Lemma encode_base62_length_witness :
  base ^ Z.of_nat 2 <= 5000 < base ^ Z.of_nat 3
  /\ exists s, encode_base62 5000 = Some s /\ String.length s = 3%nat.
Proof.
  split; [vm_compute; split; [discriminate | reflexivity]|].
  apply (encode_base62_length 5000 2). vm_compute. split; [discriminate | reflexivity].
Defined.

(** X4. The length of the code never decreases when the argument
    grows: for [0 <= m <= n] the code of [m] is at most as long as the
    code of [n]. *)
Theorem encode_base62_length_mono (m n : Z) (s t : string) :
  0 <= m <= n ->
  encode_base62 m = Some s -> encode_base62 n = Some t ->
  (String.length s <= String.length t)%nat.
Proof.
  intros [Hm Hmn] Hs Ht.
  assert (Hone : forall k u, 0 <= k -> encode_base62 k = Some u ->
                             (1 <= String.length u)%nat).
  { intros k u Hk Hu. destruct (Z.eq_dec k 0) as [->|Hne].
    - injection Hu as <-. cbn. lia.
    - destruct (encode_base62_shape k ltac:(lia)) as (u' & j & He & Hl & _).
      rewrite Hu in He. injection He as ->. lia. }
  destruct (Z.eq_dec m 0) as [->|Hne].
  - injection Hs as <-. cbn. apply (Hone n t); [lia | exact Ht].
  - destruct (encode_base62_shape m ltac:(lia)) as (s' & i & Hes & Hls & [Hilo _] & _).
    destruct (encode_base62_shape n ltac:(lia)) as (t' & j & Het & Hlt & [_ Hjhi] & _).
    rewrite Hs in Hes. injection Hes as <-.
    rewrite Ht in Het. injection Het as <-.
    rewrite Hls, Hlt.
    assert (Z.of_nat i < Z.of_nat (S j)); [|lia].
    apply (Z.pow_lt_mono_r_iff base); [reflexivity | lia | lia].
Qed.

Lemma encode_base62_length_mono_witness :
  (String.length "Z" <= String.length "100")%nat.
Proof.
  apply (encode_base62_length_mono 61 3844 "Z" "100"); [lia | reflexivity | reflexivity].
Defined.

End Base62More.

(** ** Further properties of the handlers *)

Module AppMore.
Import Base62 App Samples Invariants AppFacts.

Lemma set_expires_at_same (r : UrlMap) : set_expires_at (expires_at r) r = r.
Proof. destruct r. reflexivity. Qed.

Lemma next_id_above (tbl : Table) (r : UrlMap) :
  r ∈ tbl -> id r < next_id tbl.
Proof.
  unfold next_id. induction tbl as [|x tbl IH]; intros Hin.
  - apply elem_of_nil in Hin. contradiction.
  - cbn [map fold_right]. apply elem_of_cons in Hin as [->|Hin]; [lia|].
    specialize (IH Hin). lia.
Qed.

Lemma next_id_positive (tbl : Table) : 0 < next_id tbl.
Proof.
  unfold next_id. induction tbl as [|x tbl IH]; cbn [map fold_right]; lia.
Qed.

Lemma auto_coded_lookup (tbl : Table) (i : nat) (r : UrlMap) :
  auto_coded tbl -> tbl !! i = Some r ->
  0 < id r /\ short_code r = encode_base62 (id r).
Proof.
  unfold auto_coded. intros Ha Hi.
  exact (proj1 (Forall_lookup
                  (fun r => 0 < id r /\ short_code r = encode_base62 (id r))
                  tbl) Ha i r Hi).
Qed.

Section ShortenMore.
Variable urlparse : string -> option ParseResult.
Variable py_int : string -> option Z.

Local Abbreviation shorten := (App.shorten urlparse py_int).
Local Abbreviation passes_url_and_expiry :=
  (App.passes_url_and_expiry urlparse py_int).

(** The three things [shorten] can do to the table, with the answers
    that go with each: nothing; rewrite the expiry of the first row
    that has the URL; append one row with the next id. *)
Lemma shorten_cases (t_expiry t_insert : datetime) (form : ShortenForm)
    (tbl : Table) :
  (snd (shorten t_expiry t_insert form tbl) = tbl)
  \/ (exists j ex e u,
        custom_code_of form = None
        /\ find_by_long_url u tbl = Some (j, ex)
        /\ snd (shorten t_expiry t_insert form tbl)
           = <[j := set_expires_at (Some e) ex]> tbl
        /\ (forall x, fst (shorten t_expiry t_insert form tbl) <> Flash x))
  \/ (exists row,
        id row = next_id tbl
        /\ (forall c, short_code row = Some c -> find_by_code c tbl = None)
        /\ snd (shorten t_expiry t_insert form tbl) = tbl ++ [row]
        /\ (forall x, fst (shorten t_expiry t_insert form tbl) <> Flash x)).
Proof.
  unfold App.shorten.
  destruct (normalize_long_url _ _) as [?|u]; [left; reflexivity|].
  destruct (is_valid_url _ u); cbn [negb]; [|left; reflexivity].
  destruct (compute_expires_at _ _ _) as [?|e]; [left; reflexivity|].
  destruct (validate_custom_code _ tbl) as [?|[]]; [left; reflexivity|].
  assert (Hcreate :
    exists row,
      id row = next_id tbl
      /\ (forall c, short_code row = Some c -> find_by_code c tbl = None)
      /\ snd (create_row t_insert (custom_code_of form) u e tbl) = tbl ++ [row]
      /\ (forall x, fst (create_row t_insert (custom_code_of form) u e tbl)
                    <> Flash x)).
  { unfold create_row.
    destruct (match custom_code_of form with
              | Some c => Some c
              | None => _
              end) as [c|].
    - destruct (find_by_code c tbl) eqn:Hf; cbn [fst snd]; eexists;
        (split; [|split; [|split; [reflexivity | discriminate]]]);
        cbn; congruence.
    - cbn [fst snd]. eexists.
      split; [|split; [|split; [reflexivity | discriminate]]]; cbn; congruence. }
  destruct (find_by_long_url u tbl) as [[j ex]|] eqn:Hf; [|right; right; exact Hcreate].
  destruct (custom_code_of form) eqn:Hcc; [right; right; exact Hcreate|].
  unfold reuse_existing. destruct e as [t|].
  - right. left. exists j, ex, t, u. split; [reflexivity|]. split; [exact Hf|].
    cbn [short_code set_expires_at].
    destruct (short_code ex); cbn [fst snd]; split; (reflexivity || discriminate).
  - left. destruct (short_code ex); reflexivity.
Qed.

(** X5. A request that is answered with a flashed validation error
    has written nothing: the table is the one it found. *)
Theorem shorten_flash_unchanged (t_expiry t_insert : datetime)
    (form : ShortenForm) (tbl : Table) (x : FlashError) :
  fst (shorten t_expiry t_insert form tbl) = Flash x ->
  snd (shorten t_expiry t_insert form tbl) = tbl.
Proof.
  intros H.
  destruct (shorten_cases t_expiry t_insert form tbl)
    as [Hs|[(j & ex & e & u & _ & _ & _ & Hn)|(row & _ & _ & _ & Hn)]];
    [exact Hs | |]; exfalso; exact (Hn x H).
Qed.

(** X6. [shorten] never deletes, moves or rewrites a link: every row
    of the table is found afterwards at the same position, changed at
    most in [expires_at], and the table grows by one row at most. *)
Theorem shorten_frame (t_expiry t_insert : datetime) (form : ShortenForm)
    (tbl : Table) :
  (forall i r, tbl !! i = Some r ->
     exists r', snd (shorten t_expiry t_insert form tbl) !! i = Some r'
                /\ r' = set_expires_at (expires_at r') r)
  /\ (length tbl <= length (snd (shorten t_expiry t_insert form tbl))
      <= S (length tbl))%nat.
Proof.
  destruct (shorten_cases t_expiry t_insert form tbl)
    as [Hs|[(j & ex & e & u & _ & Hf & Hs & _)|(row & _ & _ & Hs & _)]];
    rewrite Hs; unfold Table in *.
  - split; [|lia]. intros i r Hi. exists r.
    split; [exact Hi | symmetry; apply set_expires_at_same].
  - apply list_find_Some in Hf as (Hj & _).
    split; [|rewrite length_insert; lia]. intros i r Hi.
    destruct (Nat.eq_dec j i) as [->|Hne].
    + rewrite Hj in Hi. injection Hi as ->.
      exists (set_expires_at (Some e) r). split; [|reflexivity].
      apply list_lookup_insert_eq. eapply lookup_lt_Some. exact Hj.
    + exists r. rewrite list_lookup_insert_ne by exact Hne.
      split; [exact Hi | symmetry; apply set_expires_at_same].
  - split; [|rewrite length_app; cbn; lia]. intros i r Hi. exists r.
    split; [|symmetry; apply set_expires_at_same].
    rewrite lookup_app_l; [exact Hi | eapply lookup_lt_Some; exact Hi].
Qed.

(** X7. The unique index on [short_code] is an invariant of the
    handlers that write: it holds after [shorten] and after
    [redirect_code] whenever it held before. *)
Theorem handlers_keep_unique_codes (t1 t2 : datetime) (form : ShortenForm)
    (code : string) (tbl : Table) :
  unique_codes tbl ->
  unique_codes (snd (shorten t1 t2 form tbl))
  /\ unique_codes (snd (redirect_code t1 t2 code tbl)).
Proof.
  intros Hu. split.
  - apply shorten_unique. exact Hu.
  - apply redirect_code_unique. exact Hu.
Qed.

Lemma ids_insert (tbl : Table) (i : nat) (r r' : UrlMap) :
  tbl !! i = Some r -> id r' = id r ->
  map id (<[i := r']> tbl) = map id tbl.
Proof.
  revert i. induction tbl as [|x tbl IH]; intros [|i] Hi Hc;
    try discriminate; cbn in Hi |- *.
  - injection Hi as ->. rewrite Hc. reflexivity.
  - f_equal. exact (IH i Hi Hc).
Qed.

Lemma redirect_code_unique_ids (t1 t2 : datetime) (code : string)
    (tbl : Table) :
  unique_ids tbl -> unique_ids (snd (redirect_code t1 t2 code tbl)).
Proof.
  unfold unique_ids, redirect_code. intros Hu.
  destruct (find_by_code code tbl) as [[i r]|] eqn:Hc; [|exact Hu].
  destruct (is_expired t1 r) as [[|]|]; [exact Hu| |exact Hu].
  destruct (SQLITE_INTEGER_MAX <? hits_or_0 r + 1); [exact Hu|]. cbn [snd].
  rewrite (ids_insert tbl i r); [exact Hu | | reflexivity].
  apply (find_by_code_Some _ _ _ _ Hc).
Qed.

(** X8. The primary key stays a key: after [shorten] and after
    [redirect_code] no two rows share an [id], and a row that
    [shorten] appends has an [id] above every [id] of the table. *)
Theorem handlers_keep_unique_ids (t1 t2 : datetime) (form : ShortenForm)
    (code : string) (tbl : Table) :
  unique_ids tbl ->
  unique_ids (snd (shorten t1 t2 form tbl))
  /\ unique_ids (snd (redirect_code t1 t2 code tbl))
  /\ (forall i r r0,
        snd (shorten t1 t2 form tbl) !! i = Some r ->
        (length tbl <= i)%nat -> r0 ∈ tbl -> id r0 < id r).
Proof.
  intros Hu.
  split; [|split; [apply redirect_code_unique_ids; exact Hu|]].
  - unfold unique_ids in *.
    destruct (shorten_cases t1 t2 form tbl)
      as [Hs|[(j & ex & e & u & _ & Hf & Hs & _)|(row & Hid & _ & Hs & _)]];
      rewrite Hs; unfold Table in *.
    + exact Hu.
    + apply list_find_Some in Hf as (Hj & _).
      rewrite (ids_insert tbl j ex); [exact Hu | exact Hj | reflexivity].
    + rewrite map_app. cbn [map]. apply NoDup_app.
      split; [exact Hu|]. split; [|apply NoDup_singleton].
      intros k Hk Hk'. apply list_elem_of_singleton in Hk'. subst k.
      apply list_elem_of_fmap in Hk as (r0 & Hr0 & Hin).
      pose proof (next_id_above tbl r0 Hin). lia.
  - intros i r r0 Hi Hlen Hr0.
    destruct (shorten_cases t1 t2 form tbl)
      as [Hs|[(j & ex & e & u & _ & Hf & Hs & _)|(row & Hid & _ & Hs & _)]];
      rewrite Hs in Hi; unfold Table in *.
    + apply lookup_lt_Some in Hi. lia.
    + apply lookup_lt_Some in Hi. rewrite length_insert in Hi. lia.
    + rewrite lookup_app_r in Hi by exact Hlen.
      destruct (i - length tbl)%nat as [|k]; cbn in Hi; [|discriminate].
      injection Hi as <-. rewrite Hid. apply next_id_above. exact Hr0.
Qed.

(** X9. A request with a custom code that matches the pattern and is
    not in the table always inserts a row, also when the URL is stored
    already: the new row has the next id, the custom code, no hit and
    no access, and the answer reports its code. *)
Theorem shorten_custom_code_inserts (t_expiry t_insert : datetime)
    (form : ShortenForm) (tbl : Table) (u c : string) (e : option datetime) :
  passes_url_and_expiry t_expiry form u e ->
  custom_code_of form = Some c ->
  fullmatch_custom_code c = true ->
  find_by_code c tbl = None ->
  shorten t_expiry t_insert form tbl
  = (Success c u e,
     tbl ++ [mkUrlMap (next_id tbl) u (Some c) (Some t_insert) (Some 0) None e]).
Proof.
  intros Hp Hc Hm Hf.
  rewrite (shorten_passed urlparse py_int _ _ _ _ _ _ Hp), Hc.
  unfold validate_custom_code. rewrite Hm, Hf. cbn [negb].
  assert (Hcr : create_row t_insert (Some c) u e tbl
                = (Success c u e,
                   tbl ++ [mkUrlMap (next_id tbl) u (Some c) (Some t_insert)
                                    (Some 0) None e])).
  { unfold create_row. rewrite Hf. reflexivity. }
  destruct (find_by_long_url u tbl) as [[i ex]|]; exact Hcr.
Qed.



(** X11. Without custom codes the generated codes never collide: in a
    table where every row carries the code generated from its
    positive id, a request without custom code that passes the checks
    of the URL and of the expiry is answered with a code, and the
    table after it is again of that kind. *)
Theorem shorten_auto_coded (t_expiry t_insert : datetime)
    (form : ShortenForm) (tbl : Table) (u : string) (e : option datetime) :
  auto_coded tbl ->
  custom_code_of form = None ->
  passes_url_and_expiry t_expiry form u e ->
  exists c e' tbl1,
    shorten t_expiry t_insert form tbl = (Success c u e', tbl1)
    /\ auto_coded tbl1.
Proof.
  unfold auto_coded. intros Ha Hc Hp.
  rewrite (shorten_passed urlparse py_int _ _ _ _ _ _ Hp), Hc.
  cbn [validate_custom_code].
  destruct (find_by_long_url u tbl) as [[i ex]|] eqn:Hf.
  - apply list_find_Some in Hf as (Hi & _).
    destruct (auto_coded_lookup tbl i ex Ha Hi) as [Hpos Hcode].
    destruct (Base62More.encode_base62_decodes (id ex) ltac:(lia))
      as (c & Hs & _).
    unfold reuse_existing. destruct e as [t|];
      cbn [short_code set_expires_at expires_at]; rewrite Hcode, Hs.
    + eexists c, _, _. split; [reflexivity|].
      apply Forall_insert; [exact Ha|]. cbn. split; assumption.
    + eexists c, _, _. split; [reflexivity | exact Ha].
  - unfold create_row. cbn [id].
    pose proof (next_id_positive tbl) as Hpos.
    destruct (Base62More.encode_base62_decodes (next_id tbl) ltac:(lia))
      as (c & Hs & _).
    rewrite Hs.
    destruct (find_by_code c tbl) as [[j r]|] eqn:Hfc.
    + exfalso. apply find_by_code_Some in Hfc as [Hj Hr].
      destruct (auto_coded_lookup tbl j r Ha Hj) as [Hrpos Hrc].
      assert (id r < next_id tbl).
      { apply next_id_above. apply list_elem_of_lookup. exists j. exact Hj. }
      assert (id r = next_id tbl); [|lia].
      apply Base62More.encode_base62_inj; [lia | lia | congruence].
    + eexists c, _, _. split; [reflexivity|].
      apply Forall_app. split; [exact Ha|].
      constructor; [|constructor]. cbn. split; [exact Hpos | congruence].
Qed.

(** X12. A link with an expiry is handed out but does not resolve:
    when the first row with the URL has an expiry, past or future,
    and the request carries neither custom code nor expiry, the
    answer is a success with the old code and the old expiry and the
    table is unchanged; a visit of that code then fails with the
    [TypeError] of [is_expired] and is not redirected. *)
Theorem shorten_reuses_expired (t_expiry t_insert t_check t_access : datetime)
    (form : ShortenForm) (tbl : Table) (u c : string) (i : nat) (r : UrlMap)
    (t0 : datetime) :
  unique_codes tbl ->
  custom_code_of form = None ->
  passes_url_and_expiry t_expiry form u None ->
  find_by_long_url u tbl = Some (i, r) ->
  short_code r = Some c -> expires_at r = Some t0 ->
  shorten t_expiry t_insert form tbl = (Success c u (Some t0), tbl)
  /\ redirect_code t_check t_access c tbl = (ServerError TypeError, tbl).
Proof.
  intros Hu Hc Hp Hf Hx He. split.
  - rewrite (shorten_passed urlparse py_int _ _ _ _ _ _ Hp), Hc.
    cbn [validate_custom_code]. rewrite Hf. unfold reuse_existing.
    rewrite Hx, He. reflexivity.
  - apply list_find_Some in Hf as (Hi & _).
    unfold redirect_code.
    rewrite (find_by_code_unique _ _ _ _ Hu Hi Hx), is_expired_stored, He.
    reflexivity.
Qed.

(** X18. Only validated URLs are stored: when every URL of the table
    passes [is_valid_url], so does every URL of the table after
    [shorten], and so does the URL of a successful answer. *)
Theorem shorten_keeps_valid_urls (t_expiry t_insert : datetime)
    (form : ShortenForm) (tbl : Table) :
  valid_urls urlparse tbl ->
  valid_urls urlparse (snd (shorten t_expiry t_insert form tbl))
  /\ (forall c u e,
        fst (shorten t_expiry t_insert form tbl) = Success c u e ->
        is_valid_url urlparse u = true).
Proof.
  unfold valid_urls, App.shorten. intros Hv.
  destruct (normalize_long_url _ _) as [r0|u0] eqn:Hn.
  { split; [exact Hv|]. cbn. intros c u e ->.
    unfold normalize_long_url in Hn.
    destruct (truthy _); [|discriminate].
    destruct (urlparse _) as [q|]; [destruct (truthy (scheme q))|];
      cbn in Hn; congruence. }
  destruct (is_valid_url urlparse u0) eqn:Hu; cbn [negb];
    [|split; [exact Hv | discriminate]].
  destruct (compute_expires_at _ _ _) as [r1|e0] eqn:He.
  { split; [exact Hv|]. cbn. intros c u e ->.
    unfold compute_expires_at in He.
    destruct (truthy _); [|discriminate].
    destruct (py_int _) as [d|]; [|congruence].
    destruct (d <=? 0); [congruence|].
    destruct (add_days _ _); congruence. }
  destruct (validate_custom_code _ tbl) as [r2|[]] eqn:Hc.
  { split; [exact Hv|]. cbn. intros c u e ->.
    unfold validate_custom_code in Hc.
    destruct (custom_code_of form) as [cc|]; [|discriminate].
    destruct (fullmatch_custom_code cc); cbn in Hc;
      [destruct (find_by_code cc tbl)|]; congruence. }
  assert (Hcreate :
    Forall (fun r => is_valid_url urlparse (long_url r) = true)
      (snd (create_row t_insert (custom_code_of form) u0 e0 tbl))
    /\ (forall c u e,
          fst (create_row t_insert (custom_code_of form) u0 e0 tbl)
          = Success c u e -> is_valid_url urlparse u = true)).
  { unfold create_row.
    destruct (match custom_code_of form with
              | Some c => Some c
              | None => _
              end) as [c0|]; [destruct (find_by_code c0 tbl)|]; cbn [fst snd];
      (split; [apply Forall_app; split; [exact Hv|];
               constructor; [exact Hu | constructor]|]);
      intros c u e; try discriminate. intros [= _ <- _]. exact Hu. }
  destruct (find_by_long_url u0 tbl) as [[i ex]|] eqn:Hf; [|exact Hcreate].
  destruct (custom_code_of form); [exact Hcreate|].
  apply list_find_Some in Hf as (Hi & Hl & _).
  unfold reuse_existing. split.
  - destruct e0 as [t|]; cbn [short_code set_expires_at];
      destruct (short_code ex); cbn [snd]; try exact Hv;
      (apply Forall_insert; [exact Hv|]; cbn; rewrite Hl; exact Hu).
  - intros c u e. destruct e0 as [t|]; cbn [short_code set_expires_at];
      destruct (short_code ex); cbn [fst]; try discriminate;
      intros [= _ <- _]; exact Hu.
Qed.

(** X19. The two commits of an insertion: a request without custom
    code for a URL that is not stored gets the code generated from
    the next id when no row carries that code; when a row carries it,
    the request fails with [IntegrityError] after the first commit,
    and the new row stays in the table without code. *)
Theorem shorten_generated_code (t_expiry t_insert : datetime)
    (form : ShortenForm) (tbl : Table) (u : string) (e : option datetime) :
  passes_url_and_expiry t_expiry form u e ->
  custom_code_of form = None ->
  find_by_long_url u tbl = None ->
  exists c,
    encode_base62 (next_id tbl) = Some c
    /\ shorten t_expiry t_insert form tbl
       = match find_by_code c tbl with
         | None =>
             (Success c u e,
              tbl ++ [mkUrlMap (next_id tbl) u (Some c) (Some t_insert)
                               (Some 0) None e])
         | Some _ =>
             (ServerError IntegrityError,
              tbl ++ [mkUrlMap (next_id tbl) u None (Some t_insert)
                               (Some 0) None e])
         end.
Proof.
  intros Hp Hc Hf.
  pose proof (next_id_positive tbl) as Hpos.
  destruct (Base62More.encode_base62_decodes (next_id tbl) ltac:(lia))
    as (c & Hs & _).
  exists c. split; [exact Hs|].
  rewrite (shorten_passed urlparse py_int _ _ _ _ _ _ Hp), Hc.
  cbn [validate_custom_code]. rewrite Hf.
  unfold create_row. cbn [id]. rewrite Hs.
  destruct (find_by_code c tbl); reflexivity.
Qed.

(** X20. A row left without code blocks its URL: when the first row
    with the URL has no code, a request for that URL without custom
    code fails with [TypeError], after writing the expiry of the
    request, if it has one, into that row. *)
Theorem shorten_codeless_row (t_expiry t_insert : datetime)
    (form : ShortenForm) (tbl : Table) (u : string) (e : option datetime)
    (i : nat) (r : UrlMap) :
  passes_url_and_expiry t_expiry form u e ->
  custom_code_of form = None ->
  find_by_long_url u tbl = Some (i, r) ->
  short_code r = None ->
  shorten t_expiry t_insert form tbl
  = (ServerError TypeError,
     match e with
     | Some _ => <[i := set_expires_at e r]> tbl
     | None => tbl
     end).
Proof.
  intros Hp Hc Hf Hx.
  rewrite (shorten_passed urlparse py_int _ _ _ _ _ _ Hp), Hc.
  cbn [validate_custom_code]. rewrite Hf. unfold reuse_existing.
  destruct e; cbn [short_code set_expires_at]; rewrite Hx; reflexivity.
Qed.

End ShortenMore.

Lemma sample_table_unique_ids : unique_ids sample_table.
Proof.
  unfold unique_ids, sample_table. cbn.
  repeat (apply NoDup_cons_2;
          [rewrite ?elem_of_cons, elem_of_nil; intuition discriminate|]).
  apply NoDup_nil_2.
Qed.

Lemma shorten_flash_unchanged_witness :
  snd (PyRef.shorten 1000 1000
         (mkShortenForm "ftp://example.com/file" "" "") sample_table)
  = sample_table.
Proof.
  apply (shorten_flash_unchanged PyRef.urlparse PyRef.py_int 1000 1000
           (mkShortenForm "ftp://example.com/file" "" "") sample_table
           invalid_url).
  reflexivity.
Defined.

Lemma handlers_keep_unique_codes_witness :
  unique_codes
    (snd (PyRef.shorten t_2026 t_2026
            (mkShortenForm "example.com/new" "" "7") sample_table))
  /\ unique_codes (snd (redirect_code t_2026 t_2026 "1" sample_table)).
Proof.
  apply (handlers_keep_unique_codes PyRef.urlparse PyRef.py_int t_2026 t_2026
           (mkShortenForm "example.com/new" "" "7") "1" sample_table
           sample_table_unique).
Defined.

Lemma handlers_keep_unique_ids_witness :
  unique_ids
    (snd (PyRef.shorten t_2026 t_2026
            (mkShortenForm "example.com/new" "" "7") sample_table))
  /\ unique_ids (snd (redirect_code t_2026 t_2026 "1" sample_table))
  /\ (forall i r r0,
        snd (PyRef.shorten t_2026 t_2026
               (mkShortenForm "example.com/new" "" "7") sample_table) !! i
        = Some r ->
        (length sample_table <= i)%nat -> r0 ∈ sample_table -> id r0 < id r).
Proof.
  apply (handlers_keep_unique_ids PyRef.urlparse PyRef.py_int t_2026 t_2026
           (mkShortenForm "example.com/new" "" "7") "1" sample_table
           sample_table_unique_ids).
Defined.

Lemma shorten_custom_code_inserts_witness :
  PyRef.shorten t_2026 t_2026
    (mkShortenForm "https://example.com/path" "promo" "") sample_table
  = (Success "promo" "https://example.com/path" None,
     sample_table
     ++ [mkUrlMap (next_id sample_table) "https://example.com/path"
           (Some "promo") (Some t_2026) (Some 0) None None]).
Proof.
  apply (shorten_custom_code_inserts PyRef.urlparse PyRef.py_int t_2026 t_2026
           (mkShortenForm "https://example.com/path" "promo" "") sample_table
           "https://example.com/path" "promo" None);
    [repeat split; reflexivity | reflexivity | reflexivity | reflexivity].
Defined.


Lemma shorten_auto_coded_witness :
  exists c e' tbl1,
    PyRef.shorten t_2026 t_2026 (mkShortenForm "example.com/new" "" "7")
      [row_live; row_expired]
    = (Success c "https://example.com/new" e', tbl1)
    /\ auto_coded tbl1.
Proof.
  apply (shorten_auto_coded PyRef.urlparse PyRef.py_int t_2026 t_2026
           (mkShortenForm "example.com/new" "" "7") [row_live; row_expired]
           "https://example.com/new" (Some (t_2026 + 7 * US_PER_DAY))).
  - repeat constructor.
  - reflexivity.
  - repeat split; reflexivity.
Defined.

Lemma shorten_keeps_valid_urls_witness :
  valid_urls PyRef.urlparse
    (snd (PyRef.shorten t_2026 t_2026
            (mkShortenForm "example.com/new" "" "7") sample_table))
  /\ (forall c u e,
        fst (PyRef.shorten t_2026 t_2026
               (mkShortenForm "example.com/new" "" "7") sample_table)
        = Success c u e ->
        is_valid_url PyRef.urlparse u = true).
Proof.
  apply (shorten_keeps_valid_urls PyRef.urlparse PyRef.py_int t_2026 t_2026
           (mkShortenForm "example.com/new" "" "7") sample_table).
  repeat constructor.
Defined.

Lemma shorten_generated_code_witness :
  exists c,
    encode_base62 (next_id [row_holds_100]) = Some c
    /\ PyRef.shorten t_2026 t_2026
         (mkShortenForm "https://example.com/b" "" "") [row_holds_100]
       = match find_by_code c [row_holds_100] with
         | None =>
             (Success c "https://example.com/b" None,
              [row_holds_100]
              ++ [mkUrlMap (next_id [row_holds_100]) "https://example.com/b"
                    (Some c) (Some t_2026) (Some 0) None None])
         | Some _ =>
             (ServerError IntegrityError,
              [row_holds_100]
              ++ [mkUrlMap (next_id [row_holds_100]) "https://example.com/b"
                    None (Some t_2026) (Some 0) None None])
         end.
Proof.
  apply (shorten_generated_code PyRef.urlparse PyRef.py_int t_2026 t_2026
           (mkShortenForm "https://example.com/b" "" "") [row_holds_100]
           "https://example.com/b" None);
    [repeat split; reflexivity | reflexivity | reflexivity].
Defined.

Lemma shorten_codeless_row_witness :
  PyRef.shorten t_2026 t_2026
    (mkShortenForm "https://example.com/b" "" "")
    [row_holds_100; row_codeless]
  = (ServerError TypeError, [row_holds_100; row_codeless]).
Proof.
  apply (shorten_codeless_row PyRef.urlparse PyRef.py_int t_2026 t_2026
           (mkShortenForm "https://example.com/b" "" "")
           [row_holds_100; row_codeless] "https://example.com/b" None
           1%nat row_codeless);
    [repeat split; reflexivity | reflexivity | reflexivity | reflexivity].
Defined.

Lemma shorten_reuses_expired_witness :
  PyRef.shorten 1000 1000 (mkShortenForm "https://example.org/" "" "")
    sample_table
  = (Success "2" "https://example.org/" (Some 500), sample_table)
  /\ redirect_code 1000 1001 "2" sample_table
     = (ServerError TypeError, sample_table).
Proof.
  apply (shorten_reuses_expired PyRef.urlparse PyRef.py_int 1000 1000 1000 1001
           (mkShortenForm "https://example.org/" "" "") sample_table
           "https://example.org/" "2" 1%nat row_expired 500
           sample_table_unique);
    try reflexivity; repeat split; reflexivity.
Defined.


(** X13. [redirect_code] touches nothing but counters: every row is
    found afterwards at the same position with the same [id],
    [long_url], [short_code], [created_at] and [expires_at], its hit
    count is the old one or one more, and the table keeps its
    length. *)
Theorem redirect_code_frame (t_check t_access : datetime) (code : string)
    (tbl : Table) :
  length (snd (redirect_code t_check t_access code tbl)) = length tbl
  /\ forall i r, tbl !! i = Some r ->
       exists r',
         snd (redirect_code t_check t_access code tbl) !! i = Some r'
         /\ id r' = id r /\ long_url r' = long_url r
         /\ short_code r' = short_code r /\ created_at r' = created_at r
         /\ expires_at r' = expires_at r
         /\ hits_or_0 r <= hits_or_0 r' <= hits_or_0 r + 1.
Proof.
  unfold redirect_code.
  destruct (find_by_code code tbl) as [[j item]|] eqn:Hf;
    [destruct (is_expired t_check item) as [[|]|];
     [|destruct (SQLITE_INTEGER_MAX <? hits_or_0 item + 1)|]|]; cbn [snd];
    try (split; [reflexivity|]; intros i r Hi; exists r;
         repeat split; (exact Hi || reflexivity || lia)).
  apply find_by_code_Some in Hf as [Hj _]. unfold Table in *.
  split; [apply length_insert|]. intros i r Hi.
  destruct (Nat.eq_dec j i) as [->|Hne].
  - rewrite Hj in Hi. injection Hi as ->. eexists.
    split; [apply list_lookup_insert_eq; eapply lookup_lt_Some; exact Hj|].
    repeat split; cbn; lia.
  - exists r. rewrite list_lookup_insert_ne by exact Hne.
    repeat split; (exact Hi || lia).
Qed.

(** X14. A redirect shows in the API: with the unique index in force,
    after the redirect of a code whose row has no expiry and whose
    new hit count fits the column, the expand API returns the same
    link with [hits] one higher (1 for a null count), [last_accessed]
    equal to the clock of the redirect and [expired] false. *)
Theorem redirect_then_expand (t_check t_access now : datetime) (code : string)
    (tbl : Table) (i : nat) (r : UrlMap) :
  unique_codes tbl ->
  tbl !! i = Some r -> short_code r = Some code ->
  expires_at r = None ->
  match hits r with
  | Some h => h + 1
  | None => 1
  end <= SQLITE_INTEGER_MAX ->
  fst (api_expand now code (snd (redirect_code t_check t_access code tbl)))
  = ExpandJson
      (mkExpandView (Some code) (long_url r)
         (Some match hits r with
               | Some h => h + 1
               | None => 1
               end)
         (created_at r) (Some t_access) None false).
Proof.
  intros Hu Hi Hc He Hh.
  pose proof (redirect_code_unique t_check t_access code tbl Hu) as Hu1.
  assert (Hhits : hits_or_0 r + 1 = match hits r with
                                    | Some h => h + 1
                                    | None => 1
                                    end).
  { unfold hits_or_0. destruct (hits r); reflexivity. }
  unfold redirect_code in *.
  rewrite (find_by_code_unique _ _ _ _ Hu Hi Hc), is_expired_stored, He in *.
  destruct (Z.ltb_spec SQLITE_INTEGER_MAX (hits_or_0 r + 1)); [lia|].
  cbn [snd] in *. unfold api_expand.
  rewrite (find_by_code_unique code _ i (touched t_access r) Hu1).
  - rewrite is_expired_stored. cbn. rewrite He, Hc, Hhits. reflexivity.
  - apply list_lookup_insert_eq. eapply lookup_lt_Some. exact Hi.
  - exact Hc.
Qed.

(** X15. Generated codes and custom codes share a name space from id
    3844 on: the code of an id below 3844 has fewer than three
    characters and is never accepted as a custom code, while the code
    of every id from 3844 up to [62^32 - 1] matches the pattern of
    custom codes. *)
Theorem generated_code_pattern (n : Z) (s : string) :
  encode_base62 n = Some s ->
  (0 <= n < 3844 -> fullmatch_custom_code s = false)
  /\ (3844 <= n < 62 ^ 32 -> fullmatch_custom_code s = true).
Proof.
  intros He. unfold fullmatch_custom_code. split.
  - intros [Hlo Hhi]. destruct (Z.eq_dec n 0) as [->|Hne].
    + injection He as <-. reflexivity.
    + destruct (Base62More.encode_base62_shape n ltac:(lia))
        as (s' & k & He' & Hl & [Hklo _] & _).
      rewrite He in He'. injection He' as <-. rewrite Hl.
      assert (Hk : Z.of_nat k < 2).
      { apply (Z.pow_lt_mono_r_iff base); [reflexivity | lia|].
        change (base ^ 2) with 3844. lia. }
      destruct k as [|[|k]]; [reflexivity | reflexivity | lia].
  - intros [Hlo Hhi].
    destruct (Base62More.encode_base62_shape n ltac:(lia))
      as (s' & k & He' & Hl & [Hklo Hkhi] & Ha & _).
    rewrite He in He'. injection He' as <-. rewrite Hl.
    assert (Hk2 : 2 < Z.of_nat (S k)).
    { apply (Z.pow_lt_mono_r_iff base); [reflexivity | lia|].
      change (base ^ 2) with 3844. lia. }
    assert (Hk32 : Z.of_nat k < 32).
    { apply (Z.pow_lt_mono_r_iff base); [reflexivity | lia|].
      change base with 62 in *. lia. }
    apply andb_true_intro. split.
    + apply andb_true_intro.
      split; [apply Nat.leb_le | apply Nat.leb_le]; lia.
    + apply forallb_forall. intros c Hc.
      rewrite Forall_forall in Ha. specialize (Ha c).
      assert (Hall : forallb code_char (list_ascii_of_string ALPHABET) = true)
        by (vm_compute; reflexivity).
      rewrite forallb_forall in Hall. apply Hall.
      apply Ha. apply list_elem_of_In. exact Hc.
Qed.


Lemma redirect_then_expand_witness :
  fst (api_expand 2000 "1" (snd (redirect_code 1000 1001 "1" sample_table)))
  = ExpandJson
      (mkExpandView (Some "1") "https://example.com/path" (Some 5)
         (Some 100) (Some 1001) None false).
Proof.
  apply (redirect_then_expand 1000 1001 2000 "1" sample_table 0%nat row_live
           sample_table_unique);
    reflexivity || discriminate.
Defined.

Lemma generated_code_pattern_witness :
  fullmatch_custom_code "Z" = false /\ fullmatch_custom_code "100" = true.
Proof.
  split.
  - apply (proj1 (generated_code_pattern 61 "Z" eq_refl)). lia.
  - apply (proj2 (generated_code_pattern 3844 "100" eq_refl)).
    split; [lia | reflexivity].
Defined.

End AppMore.

(** ** Properties of the QR images *)

Module QrFacts.
Import App Qr.

Lemma append_inv_head (p a b : string) :
  (p ++ a)%string = (p ++ b)%string -> a = b.
Proof.
  induction p as [|c p IH]; intros H; [exact H|].
  change (String c (p ++ a) = String c (p ++ b))%string in H.
  injection H as H. auto.
Qed.

Lemma list_ascii_of_append (a b : string) :
  list_ascii_of_string (a ++ b) = list_ascii_of_string a ++ list_ascii_of_string b.
Proof.
  induction a as [|c a IH]; [reflexivity|].
  cbn [list_ascii_of_string app]. rewrite <- IH. reflexivity.
Qed.

Lemma append_inv_tail (a b t : string) :
  (a ++ t)%string = (b ++ t)%string -> a = b.
Proof.
  intros H. apply (f_equal list_ascii_of_string) in H.
  rewrite !list_ascii_of_append in H. apply app_inv_tail in H.
  rewrite <- (string_of_list_ascii_of_string a),
          <- (string_of_list_ascii_of_string b), H.
  reflexivity.
Qed.

(** Joining a name that does not start with a slash puts a prefix,
    fixed by the folder, in front of it. *)
Lemma path_join_prefix (a : string) :
  exists pre, forall b,
    String.get 0 b <> Some "/"%char -> path_join a b = (pre ++ b)%string.
Proof.
  exists (if String.eqb a "" then a
          else match String.get (String.length a - 1) a with
               | Some "/"%char => a
               | _ => (a ++ "/")%string
               end).
  intros b Hb. unfold path_join.
  assert (Hnb : match b with
                | String "/" _ => False
                | _ => True
                end).
  { destruct b as [|c b]; [exact I|]. cbn in Hb.
    destruct (Ascii.eqb_spec c "/") as [->|Hc]; [congruence|].
    destruct c as [[] [] [] [] [] [] [] []]; try exact I. congruence. }
  destruct (String.eqb a "").
  - destruct b as [|c b]; [reflexivity|].
    destruct c as [[] [] [] [] [] [] [] []]; try reflexivity. contradiction.
  - assert (Happ : forall x : string, ((a ++ "/") ++ x = a ++ "/" ++ x)%string).
    { intros x. induction a as [|c a IH]; [reflexivity|].
      change (String c ((a ++ "/") ++ x) = String c (a ++ "/" ++ x))%string.
      rewrite IH. reflexivity. }
    destruct b as [|c b].
    + destruct (String.get _ a) as [[[] [] [] [] [] [] [] []]|];
        try reflexivity; apply eq_sym, Happ.
    + destruct c as [[] [] [] [] [] [] [] []]; try contradiction;
        destruct (String.get _ a) as [[[] [] [] [] [] [] [] []]|];
        try reflexivity; apply eq_sym, Happ.
Qed.

Section QrFacts.
Variable Image : Type.
Variable qrcode_make : string -> Image.
Variable root_path : string.

Local Abbreviation ensure_qr_for_code :=
  (Qr.ensure_qr_for_code Image qrcode_make root_path).
Local Abbreviation img_path := (Qr.img_path root_path).

(** X16. The QR image of a code is written once: after
    [_ensure_qr_for_code] the image of the code exists, every file
    that existed keeps its content, no other path is touched, and a
    second call for the same code changes nothing, whatever host it
    is given. *)
Theorem ensure_qr_writes_once (code host_url : string)
    (files : gmap string Image) :
  is_Some (ensure_qr_for_code code host_url files !! img_path code)
  /\ (forall p img, files !! p = Some img ->
        ensure_qr_for_code code host_url files !! p = Some img)
  /\ (forall p, p <> img_path code ->
        ensure_qr_for_code code host_url files !! p = files !! p)
  /\ (forall host_url',
        ensure_qr_for_code code host_url'
          (ensure_qr_for_code code host_url files)
        = ensure_qr_for_code code host_url files).
Proof.
  unfold Qr.ensure_qr_for_code.
  destruct (files !! img_path code) as [img0|] eqn:Hf.
  - split; [rewrite Hf; eauto|]. split; [auto|]. split; [auto|].
    intros host'. rewrite Hf. reflexivity.
  - split; [rewrite lookup_insert_eq; eauto|].
    split.
    { intros p img Hp. destruct (decide (img_path code = p)) as [<-|Hne].
      - congruence.
      - rewrite lookup_insert_ne by exact Hne. exact Hp. }
    split; [intros p Hp; apply lookup_insert_ne; congruence|].
    intros host'. rewrite lookup_insert_eq. reflexivity.
Qed.

(** X17. Codes made of the characters of custom codes (letters,
    digits, [_] and [-], which include every generated code) name
    their images apart: two different codes have different image
    paths. *)
Theorem img_path_injective (c1 c2 : string) :
  forallb code_char (list_ascii_of_string c1) = true ->
  forallb code_char (list_ascii_of_string c2) = true ->
  c1 <> c2 -> img_path c1 <> img_path c2.
Proof.
  intros H1 H2 Hne E. apply Hne.
  destruct (path_join_prefix (Qr.qr_folder root_path)) as [pre Hpre].
  assert (Hs : forall c, forallb code_char (list_ascii_of_string c) = true ->
                 String.get 0 (c ++ ".png") <> Some "/"%char).
  { intros [|a c] Hc; cbn; [discriminate|].
    cbn in Hc. apply andb_prop in Hc as [Ha _].
    intros [= ->]. vm_compute in Ha. discriminate. }
  unfold Qr.img_path in E.
  rewrite (Hpre _ (Hs c1 H1)), (Hpre _ (Hs c2 H2)) in E.
  apply append_inv_head in E. apply append_inv_tail in E. exact E.
Qed.

End QrFacts.

Lemma img_path_injective_witness :
  Qr.img_path "/srv/app" "my_code" <> Qr.img_path "/srv/app" "1".
Proof.
  apply (img_path_injective "/srv/app" "my_code" "1");
    [reflexivity | reflexivity | discriminate].
Defined.

End QrFacts.
